(** * Scholarship-application portal: application lifecycle and access gates

    A shallow embedding of the client code of the portal
    (pages [Apply], [Dashboard], [AdminDashboard], the [AuthContext]
    provider and the declarations of [lib/supabase]) together with a model
    of the remote collaborators it talks to (relational store and blob
    storage), and the properties of the specification stated over it.

    Remote calls are modelled with an explicit world: the store contents,
    a log of the calls issued, and a script of replies that decides, call by
    call, whether the remote side answers, answers with an error object, or
    the awaited promise rejects. *)

From stdpp Require Import base tactics option list sorting gmap strings pretty.
From Stdlib Require Import Ascii String NArith Lia.

Local Open Scope N_scope.

(** ** Unicode data for lower-casing

    [String.prototype.toLowerCase] follows the Unicode default case
    conversion: the lower-case mapping of each code point (the one of
    U+0130 has two code points), and U+03A3, the capital sigma, lower-cased
    to the final sigma U+03C2 in the Final_Sigma context and to U+03C3
    elsewhere. The three tables below are those of Unicode 14.0. *)

Module Unicode.

(** The code points whose lower-case mapping is one other code point, in
    runs [(lo, hi, stride, target)]: code point [lo + k * stride], up to
    [hi], is mapped to [target + k * stride]. *)
Definition lowercase_mappings : list (N * N * N * N) :=
  [
   (65, 90, 1, 97); (192, 214, 1, 224); (216, 222, 1, 248);
   (256, 302, 2, 257); (306, 310, 2, 307); (313, 327, 2, 314);
   (330, 374, 2, 331); (376, 376, 1, 255); (377, 381, 2, 378);
   (385, 385, 1, 595); (386, 388, 2, 387); (390, 390, 1, 596);
   (391, 391, 1, 392); (393, 394, 1, 598); (395, 395, 1, 396);
   (398, 398, 1, 477); (399, 399, 1, 601); (400, 400, 1, 603);
   (401, 401, 1, 402); (403, 403, 1, 608); (404, 404, 1, 611);
   (406, 406, 1, 617); (407, 407, 1, 616); (408, 408, 1, 409);
   (412, 412, 1, 623); (413, 413, 1, 626); (415, 415, 1, 629);
   (416, 420, 2, 417); (422, 422, 1, 640); (423, 423, 1, 424);
   (425, 425, 1, 643); (428, 428, 1, 429); (430, 430, 1, 648);
   (431, 431, 1, 432); (433, 434, 1, 650); (435, 437, 2, 436);
   (439, 439, 1, 658); (440, 440, 1, 441); (444, 444, 1, 445);
   (452, 452, 1, 454); (453, 453, 1, 454); (455, 455, 1, 457);
   (456, 456, 1, 457); (458, 458, 1, 460); (459, 475, 2, 460);
   (478, 494, 2, 479); (497, 497, 1, 499); (498, 500, 2, 499);
   (502, 502, 1, 405); (503, 503, 1, 447); (504, 542, 2, 505);
   (544, 544, 1, 414); (546, 562, 2, 547); (570, 570, 1, 11365);
   (571, 571, 1, 572); (573, 573, 1, 410); (574, 574, 1, 11366);
   (577, 577, 1, 578); (579, 579, 1, 384); (580, 580, 1, 649);
   (581, 581, 1, 652); (582, 590, 2, 583); (880, 882, 2, 881);
   (886, 886, 1, 887); (895, 895, 1, 1011); (902, 902, 1, 940);
   (904, 906, 1, 941); (908, 908, 1, 972); (910, 911, 1, 973);
   (913, 929, 1, 945); (931, 939, 1, 963); (975, 975, 1, 983);
   (984, 1006, 2, 985); (1012, 1012, 1, 952); (1015, 1015, 1, 1016);
   (1017, 1017, 1, 1010); (1018, 1018, 1, 1019); (1021, 1023, 1, 891);
   (1024, 1039, 1, 1104); (1040, 1071, 1, 1072); (1120, 1152, 2, 1121);
   (1162, 1214, 2, 1163); (1216, 1216, 1, 1231); (1217, 1229, 2, 1218);
   (1232, 1326, 2, 1233); (1329, 1366, 1, 1377); (4256, 4293, 1, 11520);
   (4295, 4295, 1, 11559); (4301, 4301, 1, 11565); (5024, 5103, 1, 43888);
   (5104, 5109, 1, 5112); (7312, 7354, 1, 4304); (7357, 7359, 1, 4349);
   (7680, 7828, 2, 7681); (7838, 7838, 1, 223); (7840, 7934, 2, 7841);
   (7944, 7951, 1, 7936); (7960, 7965, 1, 7952); (7976, 7983, 1, 7968);
   (7992, 7999, 1, 7984); (8008, 8013, 1, 8000); (8025, 8031, 2, 8017);
   (8040, 8047, 1, 8032); (8072, 8079, 1, 8064); (8088, 8095, 1, 8080);
   (8104, 8111, 1, 8096); (8120, 8121, 1, 8112); (8122, 8123, 1, 8048);
   (8124, 8124, 1, 8115); (8136, 8139, 1, 8050); (8140, 8140, 1, 8131);
   (8152, 8153, 1, 8144); (8154, 8155, 1, 8054); (8168, 8169, 1, 8160);
   (8170, 8171, 1, 8058); (8172, 8172, 1, 8165); (8184, 8185, 1, 8056);
   (8186, 8187, 1, 8060); (8188, 8188, 1, 8179); (8486, 8486, 1, 969);
   (8490, 8490, 1, 107); (8491, 8491, 1, 229); (8498, 8498, 1, 8526);
   (8544, 8559, 1, 8560); (8579, 8579, 1, 8580); (9398, 9423, 1, 9424);
   (11264, 11311, 1, 11312); (11360, 11360, 1, 11361); (11362, 11362, 1, 619);
   (11363, 11363, 1, 7549); (11364, 11364, 1, 637); (11367, 11371, 2, 11368);
   (11373, 11373, 1, 593); (11374, 11374, 1, 625); (11375, 11375, 1, 592);
   (11376, 11376, 1, 594); (11378, 11378, 1, 11379); (11381, 11381, 1, 11382);
   (11390, 11391, 1, 575); (11392, 11490, 2, 11393); (11499, 11501, 2, 11500);
   (11506, 11506, 1, 11507); (42560, 42604, 2, 42561); (42624, 42650, 2, 42625);
   (42786, 42798, 2, 42787); (42802, 42862, 2, 42803); (42873, 42875, 2, 42874);
   (42877, 42877, 1, 7545); (42878, 42886, 2, 42879); (42891, 42891, 1, 42892);
   (42893, 42893, 1, 613); (42896, 42898, 2, 42897); (42902, 42920, 2, 42903);
   (42922, 42922, 1, 614); (42923, 42923, 1, 604); (42924, 42924, 1, 609);
   (42925, 42925, 1, 620); (42926, 42926, 1, 618); (42928, 42928, 1, 670);
   (42929, 42929, 1, 647); (42930, 42930, 1, 669); (42931, 42931, 1, 43859);
   (42932, 42946, 2, 42933); (42948, 42948, 1, 42900); (42949, 42949, 1, 642);
   (42950, 42950, 1, 7566); (42951, 42953, 2, 42952); (42960, 42960, 1, 42961);
   (42966, 42968, 2, 42967); (42997, 42997, 1, 42998); (65313, 65338, 1, 65345);
   (66560, 66599, 1, 66600); (66736, 66771, 1, 66776); (66928, 66964, 2, 66967);
   (66929, 66937, 2, 66968); (66941, 66953, 2, 66980); (66957, 66961, 2, 66996);
   (66965, 66965, 1, 67004); (68736, 68786, 1, 68800); (71840, 71871, 1, 71872);
   (93760, 93791, 1, 93792); (125184, 125217, 1, 125218)
  ].

(** The code points with the property Case_Ignorable, as ranges. *)
Definition case_ignorable_ranges : list (N * N) :=
  [
   (39, 39); (46, 46); (58, 58); (94, 94); (96, 96);
   (168, 168); (173, 173); (175, 175); (180, 180); (183, 184);
   (688, 879); (884, 885); (890, 890); (900, 901); (903, 903);
   (1155, 1161); (1369, 1369); (1375, 1375); (1425, 1469); (1471, 1471);
   (1473, 1474); (1476, 1477); (1479, 1479); (1524, 1524); (1536, 1541);
   (1552, 1562); (1564, 1564); (1600, 1600); (1611, 1631); (1648, 1648);
   (1750, 1757); (1759, 1768); (1770, 1773); (1807, 1807); (1809, 1809);
   (1840, 1866); (1958, 1968); (2027, 2037); (2042, 2042); (2045, 2045);
   (2070, 2093); (2137, 2139); (2184, 2184); (2192, 2193); (2200, 2207);
   (2249, 2306); (2362, 2362); (2364, 2364); (2369, 2376); (2381, 2381);
   (2385, 2391); (2402, 2403); (2417, 2417); (2433, 2433); (2492, 2492);
   (2497, 2500); (2509, 2509); (2530, 2531); (2558, 2558); (2561, 2562);
   (2620, 2620); (2625, 2626); (2631, 2632); (2635, 2637); (2641, 2641);
   (2672, 2673); (2677, 2677); (2689, 2690); (2748, 2748); (2753, 2757);
   (2759, 2760); (2765, 2765); (2786, 2787); (2810, 2815); (2817, 2817);
   (2876, 2876); (2879, 2879); (2881, 2884); (2893, 2893); (2901, 2902);
   (2914, 2915); (2946, 2946); (3008, 3008); (3021, 3021); (3072, 3072);
   (3076, 3076); (3132, 3132); (3134, 3136); (3142, 3144); (3146, 3149);
   (3157, 3158); (3170, 3171); (3201, 3201); (3260, 3260); (3263, 3263);
   (3270, 3270); (3276, 3277); (3298, 3299); (3328, 3329); (3387, 3388);
   (3393, 3396); (3405, 3405); (3426, 3427); (3457, 3457); (3530, 3530);
   (3538, 3540); (3542, 3542); (3633, 3633); (3636, 3642); (3654, 3662);
   (3761, 3761); (3764, 3772); (3782, 3782); (3784, 3789); (3864, 3865);
   (3893, 3893); (3895, 3895); (3897, 3897); (3953, 3966); (3968, 3972);
   (3974, 3975); (3981, 3991); (3993, 4028); (4038, 4038); (4141, 4144);
   (4146, 4151); (4153, 4154); (4157, 4158); (4184, 4185); (4190, 4192);
   (4209, 4212); (4226, 4226); (4229, 4230); (4237, 4237); (4253, 4253);
   (4348, 4348); (4957, 4959); (5906, 5908); (5938, 5939); (5970, 5971);
   (6002, 6003); (6068, 6069); (6071, 6077); (6086, 6086); (6089, 6099);
   (6103, 6103); (6109, 6109); (6155, 6159); (6211, 6211); (6277, 6278);
   (6313, 6313); (6432, 6434); (6439, 6440); (6450, 6450); (6457, 6459);
   (6679, 6680); (6683, 6683); (6742, 6742); (6744, 6750); (6752, 6752);
   (6754, 6754); (6757, 6764); (6771, 6780); (6783, 6783); (6823, 6823);
   (6832, 6862); (6912, 6915); (6964, 6964); (6966, 6970); (6972, 6972);
   (6978, 6978); (7019, 7027); (7040, 7041); (7074, 7077); (7080, 7081);
   (7083, 7085); (7142, 7142); (7144, 7145); (7149, 7149); (7151, 7153);
   (7212, 7219); (7222, 7223); (7288, 7293); (7376, 7378); (7380, 7392);
   (7394, 7400); (7405, 7405); (7412, 7412); (7416, 7417); (7468, 7530);
   (7544, 7544); (7579, 7679); (8125, 8125); (8127, 8129); (8141, 8143);
   (8157, 8159); (8173, 8175); (8189, 8190); (8203, 8207); (8216, 8217);
   (8228, 8228); (8231, 8231); (8234, 8238); (8288, 8292); (8294, 8303);
   (8305, 8305); (8319, 8319); (8336, 8348); (8400, 8432); (11388, 11389);
   (11503, 11505); (11631, 11631); (11647, 11647); (11744, 11775); (11823, 11823);
   (12293, 12293); (12330, 12333); (12337, 12341); (12347, 12347); (12441, 12446);
   (12540, 12542); (40981, 40981); (42232, 42237); (42508, 42508); (42607, 42610);
   (42612, 42621); (42623, 42623); (42652, 42655); (42736, 42737); (42752, 42785);
   (42864, 42864); (42888, 42890); (42994, 42996); (43000, 43001); (43010, 43010);
   (43014, 43014); (43019, 43019); (43045, 43046); (43052, 43052); (43204, 43205);
   (43232, 43249); (43263, 43263); (43302, 43309); (43335, 43345); (43392, 43394);
   (43443, 43443); (43446, 43449); (43452, 43453); (43471, 43471); (43493, 43494);
   (43561, 43566); (43569, 43570); (43573, 43574); (43587, 43587); (43596, 43596);
   (43632, 43632); (43644, 43644); (43696, 43696); (43698, 43700); (43703, 43704);
   (43710, 43711); (43713, 43713); (43741, 43741); (43756, 43757); (43763, 43764);
   (43766, 43766); (43867, 43871); (43881, 43883); (44005, 44005); (44008, 44008);
   (44013, 44013); (64286, 64286); (64434, 64450); (65024, 65039); (65043, 65043);
   (65056, 65071); (65106, 65106); (65109, 65109); (65279, 65279); (65287, 65287);
   (65294, 65294); (65306, 65306); (65342, 65342); (65344, 65344); (65392, 65392);
   (65438, 65439); (65507, 65507); (65529, 65531); (66045, 66045); (66272, 66272);
   (66422, 66426); (67456, 67461); (67463, 67504); (67506, 67514); (68097, 68099);
   (68101, 68102); (68108, 68111); (68152, 68154); (68159, 68159); (68325, 68326);
   (68900, 68903); (69291, 69292); (69446, 69456); (69506, 69509); (69633, 69633);
   (69688, 69702); (69744, 69744); (69747, 69748); (69759, 69761); (69811, 69814);
   (69817, 69818); (69821, 69821); (69826, 69826); (69837, 69837); (69888, 69890);
   (69927, 69931); (69933, 69940); (70003, 70003); (70016, 70017); (70070, 70078);
   (70089, 70092); (70095, 70095); (70191, 70193); (70196, 70196); (70198, 70199);
   (70206, 70206); (70367, 70367); (70371, 70378); (70400, 70401); (70459, 70460);
   (70464, 70464); (70502, 70508); (70512, 70516); (70712, 70719); (70722, 70724);
   (70726, 70726); (70750, 70750); (70835, 70840); (70842, 70842); (70847, 70848);
   (70850, 70851); (71090, 71093); (71100, 71101); (71103, 71104); (71132, 71133);
   (71219, 71226); (71229, 71229); (71231, 71232); (71339, 71339); (71341, 71341);
   (71344, 71349); (71351, 71351); (71453, 71455); (71458, 71461); (71463, 71467);
   (71727, 71735); (71737, 71738); (71995, 71996); (71998, 71998); (72003, 72003);
   (72148, 72151); (72154, 72155); (72160, 72160); (72193, 72202); (72243, 72248);
   (72251, 72254); (72263, 72263); (72273, 72278); (72281, 72283); (72330, 72342);
   (72344, 72345); (72752, 72758); (72760, 72765); (72767, 72767); (72850, 72871);
   (72874, 72880); (72882, 72883); (72885, 72886); (73009, 73014); (73018, 73018);
   (73020, 73021); (73023, 73029); (73031, 73031); (73104, 73105); (73109, 73109);
   (73111, 73111); (73459, 73460); (78896, 78904); (92912, 92916); (92976, 92982);
   (92992, 92995); (94031, 94031); (94095, 94111); (94176, 94177); (94179, 94180);
   (110576, 110579); (110581, 110587); (110589, 110590); (113821, 113822); (113824, 113827);
   (118528, 118573); (118576, 118598); (119143, 119145); (119155, 119170); (119173, 119179);
   (119210, 119213); (119362, 119364); (121344, 121398); (121403, 121452); (121461, 121461);
   (121476, 121476); (121499, 121503); (121505, 121519); (122880, 122886); (122888, 122904);
   (122907, 122913); (122915, 122916); (122918, 122922); (123184, 123197); (123566, 123566);
   (123628, 123631); (125136, 125142); (125252, 125259); (127995, 127999); (917505, 917505);
   (917536, 917631); (917760, 917999)
  ].

(** The code points with the property Cased that are not Case_Ignorable. *)
Definition cased_ranges : list (N * N) :=
  [
   (65, 90); (97, 122); (170, 170); (181, 181); (186, 186);
   (192, 214); (216, 246); (248, 442); (444, 447); (452, 659);
   (661, 687); (880, 883); (886, 887); (891, 893); (895, 895);
   (902, 902); (904, 906); (908, 908); (910, 929); (931, 1013);
   (1015, 1153); (1162, 1327); (1329, 1366); (1376, 1416); (4256, 4293);
   (4295, 4295); (4301, 4301); (4304, 4346); (4349, 4351); (5024, 5109);
   (5112, 5117); (7296, 7304); (7312, 7354); (7357, 7359); (7424, 7467);
   (7531, 7543); (7545, 7578); (7680, 7957); (7960, 7965); (7968, 8005);
   (8008, 8013); (8016, 8023); (8025, 8025); (8027, 8027); (8029, 8029);
   (8031, 8061); (8064, 8116); (8118, 8124); (8126, 8126); (8130, 8132);
   (8134, 8140); (8144, 8147); (8150, 8155); (8160, 8172); (8178, 8180);
   (8182, 8188); (8450, 8450); (8455, 8455); (8458, 8467); (8469, 8469);
   (8473, 8477); (8484, 8484); (8486, 8486); (8488, 8488); (8490, 8493);
   (8495, 8500); (8505, 8505); (8508, 8511); (8517, 8521); (8526, 8526);
   (8544, 8575); (8579, 8580); (9398, 9449); (11264, 11387); (11390, 11492);
   (11499, 11502); (11506, 11507); (11520, 11557); (11559, 11559); (11565, 11565);
   (42560, 42605); (42624, 42651); (42786, 42863); (42865, 42887); (42891, 42894);
   (42896, 42954); (42960, 42961); (42963, 42963); (42965, 42969); (42997, 42998);
   (43002, 43002); (43824, 43866); (43872, 43880); (43888, 43967); (64256, 64262);
   (64275, 64279); (65313, 65338); (65345, 65370); (66560, 66639); (66736, 66771);
   (66776, 66811); (66928, 66938); (66940, 66954); (66956, 66962); (66964, 66965);
   (66967, 66977); (66979, 66993); (66995, 67001); (67003, 67004); (68736, 68786);
   (68800, 68850); (71840, 71903); (93760, 93823); (119808, 119892); (119894, 119964);
   (119966, 119967); (119970, 119970); (119973, 119974); (119977, 119980); (119982, 119993);
   (119995, 119995); (119997, 120003); (120005, 120069); (120071, 120074); (120077, 120084);
   (120086, 120092); (120094, 120121); (120123, 120126); (120128, 120132); (120134, 120134);
   (120138, 120144); (120146, 120485); (120488, 120512); (120514, 120538); (120540, 120570);
   (120572, 120596); (120598, 120628); (120630, 120654); (120656, 120686); (120688, 120712);
   (120714, 120744); (120746, 120770); (120772, 120779); (122624, 122633); (122635, 122654);
   (125184, 125251); (127280, 127305); (127312, 127337); (127344, 127369)
  ].

Fixpoint mapped (c : N) (runs : list (N * N * N * N)) : option N :=
  match runs with
  | [] => None
  | (lo, hi, stride, target) :: runs =>
      if (lo <=? c) && (c <=? hi) && ((c - lo) mod stride =? 0)
      then Some (target + (c - lo))
      else mapped c runs
  end.

Definition in_ranges (c : N) (ranges : list (N * N)) : bool :=
  existsb (λ r, (r.1 <=? c) && (c <=? r.2)) ranges.

Definition case_ignorable (c : N) : bool := in_ranges c case_ignorable_ranges.
Definition cased (c : N) : bool := in_ranges c cased_ranges.

(** The lower-case mapping of a code point other than the capital sigma. *)
Definition lower_point (c : N) : list N :=
  if c =? 304 then [105; 775]
  else match mapped c lowercase_mappings with
       | Some d => [d]
       | None => [c]
       end.

Fixpoint skip_ignorable (l : list N) : list N :=
  match l with
  | [] => []
  | c :: l' => if case_ignorable c then skip_ignorable l' else l
  end.

(** Final_Sigma: the sigma is preceded by a cased letter and not followed by
    one, case-ignorable code points being skipped on both sides. [before]
    is the text before the sigma, nearest code point first. *)
Definition final_sigma (before after : list N) : bool :=
  match skip_ignorable before with
  | c :: _ =>
      cased c
      && match skip_ignorable after with
         | c' :: _ => negb (cased c')
         | [] => true
         end
  | [] => false
  end.

(** Lower-casing of a text of code points, [before] being the text already
    passed, nearest code point first. *)
Fixpoint lower_points (before l : list N) : list N :=
  match l with
  | [] => []
  | c :: l' =>
      (if c =? 931 then [if final_sigma before l' then 962 else 963]
       else lower_point c)
      ++ lower_points (c :: before) l'
  end.

End Unicode.

(** ** Strings

    A JavaScript string is held as the bytes of its UTF-8 encoding (what a
    string literal of this file is). For well-formed text, searching a
    string in a string gives the same answer on UTF-8 bytes as on UTF-16
    code units. *)

Module Utf8.

(** The payload of a continuation byte. *)
Definition continuation (b : ascii) : option N :=
  let n := N_of_ascii b in
  if (128 <=? n) && (n <=? 191) then Some (n - 128) else None.

(** The code points of a string. A byte that starts no well-formed sequence
    (it stands for no text) is kept as the number [1114112 + byte], beyond
    the code points. *)
Fixpoint decode (s : string) : list N :=
  match s with
  | EmptyString => []
  | String b0 s1 =>
      let n0 := N_of_ascii b0 in
      let kept := (1114112 + n0) :: decode s1 in
      if n0 <? 128 then n0 :: decode s1
      else
        match s1 with
        | EmptyString => kept
        | String b1 s2 =>
            match continuation b1 with
            | None => kept
            | Some x1 =>
                if n0 <? 224 then
                  let c := (n0 - 192) * 64 + x1 in
                  if (192 <=? n0) && (128 <=? c) then c :: decode s2 else kept
                else
                  match s2 with
                  | EmptyString => kept
                  | String b2 s3 =>
                      match continuation b2 with
                      | None => kept
                      | Some x2 =>
                          if n0 <? 240 then
                            let c := ((n0 - 224) * 64 + x1) * 64 + x2 in
                            if (2048 <=? c) && negb ((55296 <=? c) && (c <=? 57343))
                            then c :: decode s3 else kept
                          else
                            match s3 with
                            | EmptyString => kept
                            | String b3 s4 =>
                                match continuation b3 with
                                | None => kept
                                | Some x3 =>
                                    let c := (((n0 - 240) * 64 + x1) * 64 + x2) * 64 + x3 in
                                    if (n0 <? 248) && (65536 <=? c) && (c <=? 1114111)
                                    then c :: decode s4 else kept
                                end
                            end
                      end
                  end
            end
        end
  end.

Definition encode_point (c : N) : string :=
  if c <? 128 then String (ascii_of_N c) EmptyString
  else if c <? 2048 then
    String (ascii_of_N (192 + c / 64))
      (String (ascii_of_N (128 + c mod 64)) EmptyString)
  else if c <? 65536 then
    String (ascii_of_N (224 + c / 4096))
      (String (ascii_of_N (128 + (c / 64) mod 64))
         (String (ascii_of_N (128 + c mod 64)) EmptyString))
  else if c <? 1114112 then
    String (ascii_of_N (240 + c / 262144))
      (String (ascii_of_N (128 + (c / 4096) mod 64))
         (String (ascii_of_N (128 + (c / 64) mod 64))
            (String (ascii_of_N (128 + c mod 64)) EmptyString)))
  else String (ascii_of_N (c - 1114112)) EmptyString.

Fixpoint encode (l : list N) : string :=
  match l with
  | [] => EmptyString
  | c :: l' => encode_point c +:+ encode l'
  end.

End Utf8.

(** ** JavaScript string primitives used by the pages *)

Module Js.

(** [String.prototype.toLowerCase]. *)
Definition toLowerCase (s : string) : string :=
  Utf8.encode (Unicode.lower_points [] (Utf8.decode s)).

(** [String.prototype.startsWith]. *)
Fixpoint startsWith (s t : string) {struct t} : bool :=
  match t, s with
  | EmptyString, _ => true
  | String _ _, EmptyString => false
  | String d t', String c s' => bool_decide (c = d) && startsWith s' t'
  end.

(** [String.prototype.includes]: [t] occurs in [s] as a contiguous run. *)
Fixpoint includes (s t : string) : bool :=
  match s with
  | EmptyString => startsWith s t
  | String _ s' => startsWith s t || includes s' t
  end.

(** [s.split('.').pop()]: the text after the last dot, the whole string when
    it has no dot (the array returned by [split] is never empty). *)
Fixpoint split_dot_pop_go (acc s : string) : string :=
  match s with
  | EmptyString => String.rev acc
  | String c s' =>
      if bool_decide (c = "."%char) then split_dot_pop_go EmptyString s'
      else split_dot_pop_go (String c acc) s'
  end.

Definition split_dot_pop (s : string) : string := split_dot_pop_go EmptyString s.

(** The characters [encodeURI] leaves as they are. *)
Definition uri_kept : string :=
  "ABCDEFGHIJKLMNOPQRSTUVWXYZabcdefghijklmnopqrstuvwxyz0123456789;,/?:@&=+$-_.!~*'()#".

Fixpoint string_mem (c : ascii) (s : string) : bool :=
  match s with
  | EmptyString => false
  | String d s' => bool_decide (c = d) || string_mem c s'
  end.

Definition hex_digit (n : N) : ascii :=
  default "0"%char (String.get (N.to_nat n) "0123456789ABCDEF").

(** [encodeURI]: every byte of the UTF-8 encoding that is not one of the
    kept characters is written as a percent sign and two hexadecimal
    digits. *)
Fixpoint encodeURI (s : string) : string :=
  match s with
  | EmptyString => EmptyString
  | String c s' =>
      if string_mem c uri_kept then String c (encodeURI s')
      else String "%"%char
             (String (hex_digit (N_of_ascii c / 16))
                (String (hex_digit (N_of_ascii c mod 16)) (encodeURI s')))
  end.

(** [Array.prototype.includes] on an array of strings. *)
Definition array_includes (xs : list string) (x : string) : bool :=
  bool_decide (x ∈ xs).

(** A value that can be thrown or returned in the [error] slot of a reply.
    [instanceof_Error] records whether the value is an instance of [Error];
    [message] is its [message] property. *)
Record Thrown := mkThrown { instanceof_Error : bool; message : string }.

End Js.

(** ** The specification's words for "case-insensitive substring" *)

Module Wording.

(** The letters of the basic Latin alphabet, upper case and lower case. *)
Definition upper_letters : string := "ABCDEFGHIJKLMNOPQRSTUVWXYZ".
Definition lower_letters : string := "abcdefghijklmnopqrstuvwxyz".

(** Each upper-case letter with its lower-case form. *)
Definition letter_pairs : list (ascii * ascii) :=
  zip (list_ascii_of_string upper_letters) (list_ascii_of_string lower_letters).

(** Two characters are the same letter up to case: they are equal, or they
    are the upper-case and the lower-case form of one letter. *)
Definition same_letter (c d : ascii) : Prop :=
  c = d ∨ (c, d) ∈ letter_pairs ∨ (d, c) ∈ letter_pairs.

(** The text is written with the 128 characters of ASCII only. *)
Fixpoint ascii_text (s : string) : Prop :=
  match s with
  | EmptyString => True
  | String c s' => N_of_ascii c < 128 ∧ ascii_text s'
  end.

Inductive eq_ignore_case : string → string → Prop :=
  | eic_nil : eq_ignore_case EmptyString EmptyString
  | eic_cons c d s t :
      same_letter c d → eq_ignore_case s t →
      eq_ignore_case (String c s) (String d t).


End Wording.

(** ** Rows of the relational store, as declared in [lib/supabase]

    Timestamps reach the client serialised as strings and are never compared
    there; the store orders rows by the instant they denote, so they are
    natural numbers (an instant on the store's clock) here. *)

Module Student.
Record t := mk {
  id : string;
  full_name : string;
  email : string;
  phone : string;
  created_at : N;
  updated_at : N
}.
End Student.

Module Application.
Record t := mk {
  id : string;
  student_id : string;
  desired_country : string;
  desired_college : string;
  education_level : string;
  field_of_study : string;
  passport_url : string;
  transcripts_url : string;
  motivation_letter_url : string;
  status : string;
  admin_notes : option string;
  created_at : N;
  updated_at : N
}.

(** The four values of the declared type of [status]. *)
Definition statuses : list string := ["Pending"; "Reviewed"; "Accepted"; "Rejected"].

(** [{ ...app, status: s }] *)
Definition with_status (s : string) (a : t) : t :=
  mk (id a) (student_id a) (desired_country a) (desired_college a)
     (education_level a) (field_of_study a) (passport_url a)
     (transcripts_url a) (motivation_letter_url a) s (admin_notes a)
     (created_at a) (updated_at a).

Definition with_updated_at (now : N) (a : t) : t :=
  mk (id a) (student_id a) (desired_country a) (desired_college a)
     (education_level a) (field_of_study a) (passport_url a)
     (transcripts_url a) (motivation_letter_url a) (status a) (admin_notes a)
     (created_at a) now.

(** The columns a client sends on insertion (the object literal passed to
    [insert] in [Apply.handleSubmit]). *)
Record payload := mkPayload {
  p_student_id : string;
  p_desired_country : string;
  p_desired_college : string;
  p_education_level : string;
  p_field_of_study : string;
  p_passport_url : string;
  p_transcripts_url : string;
  p_motivation_letter_url : string;
  p_status : string
}.
End Application.

(** [interface ApplicationWithStudent extends Application { student: Student }];
    the declared type has no [null] for [student]. *)
Record ApplicationWithStudent := mkJoined {
  app : Application.t;
  student : Student.t
}.

(** ** The remote side: relational store and blob storage *)

Module Remote.

Record Store := mkStore {
  applications : list Application.t;
  students : list Student.t;
  (** ids of the rows of table [admins] *)
  admins : gset string;
  (** paths of the objects of bucket [applications] *)
  objects : list string;
  (** source of the ids the store gives to inserted rows *)
  next_id : N
}.

Definition with_applications (apps : list Application.t) (s : Store) : Store :=
  mkStore apps (students s) (admins s) (objects s) (next_id s).

(** Modelled from the spec: the table definitions (column defaults) are not
    part of the client code. An inserted row gets a unique id, both
    timestamps are set to the instant of insertion, and no admin note. *)
Definition insert_application (now : N) (p : Application.payload) (s : Store) : Store :=
  let row :=
    Application.mk (pretty (next_id s))
      (Application.p_student_id p) (Application.p_desired_country p)
      (Application.p_desired_college p) (Application.p_education_level p)
      (Application.p_field_of_study p) (Application.p_passport_url p)
      (Application.p_transcripts_url p) (Application.p_motivation_letter_url p)
      (Application.p_status p) None now now in
  mkStore (applications s ++ [row]) (students s) (admins s) (objects s)
          (next_id s + 1).

(** Modelled from the spec: [updated_at] is "bumped on every mutation" by the
    store; the client sends the [status] column only. The rows selected by
    [.eq('id', appId)] get the new status and the instant of the update. *)
Definition update_row (now : N) (appId newStatus : string) (a : Application.t) : Application.t :=
  if bool_decide (Application.id a = appId)
  then Application.with_updated_at now (Application.with_status newStatus a)
  else a.

Definition update_status (now : N) (appId newStatus : string) (s : Store) : Store :=
  with_applications (update_row now appId newStatus <$> applications s) s.

Definition put_object (path : string) (s : Store) : Store :=
  mkStore (applications s) (students s) (admins s) (objects s ++ [path]) (next_id s).

(** [.order('created_at', { ascending: false })]: [a] may come before [b]. *)
Definition newer_first (a b : Application.t) : Prop :=
  Application.created_at b ≤ Application.created_at a.

Global Instance newer_first_dec : RelDecision newer_first.
Proof. intros a b. unfold newer_first. apply _. Defined.

Global Instance newer_first_total : Total newer_first.
Proof. intros a b. unfold newer_first. lia. Qed.

Global Instance newer_first_trans : Transitive newer_first.
Proof. intros a b c. unfold newer_first. lia. Qed.

Definition order_desc (rows : list Application.t) : list Application.t :=
  merge_sort newer_first rows.

(** [from('applications').select(all columns).eq('student_id', uid)
      .order('created_at', { ascending: false })] *)
Definition select_own (uid : string) (s : Store) : list Application.t :=
  order_desc (filter (λ a, Application.student_id a = uid) (applications s)).

(** The embedded to-one join over [applications_student_id_fkey]:
    the foreign key guarantees the referenced student row; a row whose
    reference dangles (impossible under the key) is left out. *)
Definition join_student (s : Store) (a : Application.t) : option ApplicationWithStudent :=
  mkJoined a <$> (snd <$> list_find (λ st, Student.id st = Application.student_id a) (students s)).

(** [from('applications').select(all columns, joined student)
      .order('created_at', { ascending: false })] *)
Definition select_all (s : Store) : list ApplicationWithStudent :=
  omap (join_student s) (order_desc (applications s)).

(** [from('students').select('full_name').eq('id', uid).maybeSingle()] *)
Definition select_student_name (uid : string) (s : Store) : option string :=
  Student.full_name <$> (snd <$> list_find (λ st, Student.id st = uid) (students s)).

(** [from('admins').select('id').eq('id', uid).maybeSingle()] *)
Definition select_admin (uid : string) (s : Store) : option string :=
  if bool_decide (uid ∈ admins s) then Some uid else None.

(** [storage.from('applications').getPublicUrl(path)]: computed on the
    client from the project URL, no request is made; the library passes the
    URL through [encodeURI]. *)
Definition getPublicUrl (supabaseUrl path : string) : string :=
  Js.encodeURI (supabaseUrl +:+ "/storage/v1/object/public/applications/" +:+ path).

(** What the remote side does with one request. *)
Inductive Reply :=
  | Answer                      (** the request is served *)
  | ErrorReply (e : Js.Thrown)  (** resolved with [{ data: null, error: e }] *)
  | Reject (e : Js.Thrown).     (** the awaited promise rejects with [e] *)

(** The requests the pages issue. *)
Inductive Call :=
  | CallUpload (path : string)
  | CallInsert (p : Application.payload)
  | CallUpdateStatus (appId newStatus : string)
  | CallSelectOwn (uid : string)
  | CallSelectAll
  | CallSelectStudentName (uid : string)
  | CallSelectAdmin (uid : string).

Record World := mkWorld {
  store : Store;
  (** replies to the coming requests, in order; served once exhausted *)
  script : list Reply;
  (** requests issued so far, oldest first *)
  calls : list Call;
  (** [Date.now()] and the store's clock *)
  clock : N;
  (** arguments of [console.error] so far *)
  console : list Js.Thrown;
  (** [VITE_SUPABASE_URL] *)
  supabaseUrl : string
}.

(** The reply the remote side will give to the [i]-th coming request. *)
Definition coming_reply (w : World) (i : nat) : Reply :=
  default Answer (head (Nat.iter i tail (script w))).

(** The error a reply carries, if the request fails. *)
Definition failure (r : Reply) : option Js.Thrown :=
  match r with
  | Answer => None
  | ErrorReply e | Reject e => Some e
  end.





End Remote.

(** ** Handlers as state-passing computations that may throw

    A handler runs on a pair of the component's state and the world. State
    updates made before an exception are kept, as [setState] calls made
    before a [throw] are. *)

Inductive Completion (A : Type) :=
  | Normal (a : A)
  | Abrupt (e : Js.Thrown).
Arguments Normal {A} a.
Arguments Abrupt {A} e.

Definition M (Σ A : Type) : Type := Σ → Completion A * Σ.

Definition ret {Σ A} (a : A) : M Σ A := λ σ, (Normal a, σ).

Definition bind {Σ A B} (m : M Σ A) (k : A → M Σ B) : M Σ B :=
  λ σ, match m σ with
       | (Normal a, σ') => k a σ'
       | (Abrupt e, σ') => (Abrupt e, σ')
       end.

Definition throw {Σ A} (e : Js.Thrown) : M Σ A := λ σ, (Abrupt e, σ).

(** [try { m } catch (err) { h err }] *)
Definition try_catch {Σ A} (m : M Σ A) (h : Js.Thrown → M Σ A) : M Σ A :=
  λ σ, match m σ with
       | (Normal a, σ') => (Normal a, σ')
       | (Abrupt e, σ') => h e σ'
       end.

(** [try { m } finally { f }], for an [f] that completes normally or throws. *)
Definition try_finally {Σ A} (m : M Σ A) (f : M Σ unit) : M Σ A :=
  λ σ, match m σ with
       | (r, σ') =>
           match f σ' with
           | (Normal _, σ'') => (r, σ'')
           | (Abrupt e, σ'') => (Abrupt e, σ'')
           end
       end.

Definition get {Σ} : M Σ Σ := λ σ, (Normal σ, σ).
Definition modify {Σ} (f : Σ → Σ) : M Σ unit := λ σ, (Normal (), f σ).

Global Instance M_ret {Σ} : MRet (M Σ) := λ A, ret.
Global Instance M_bind {Σ} : MBind (M Σ) := λ A B k m, bind m k.

(** The state after running a handler. *)
Definition exec {Σ A} (m : M Σ A) (σ : Σ) : Σ := snd (m σ).
(** How the handler completed. *)
Definition outcome {Σ A} (m : M Σ A) (σ : Σ) : Completion A := fst (m σ).

Module Net.
Import Remote.

Section net.
Context {S : Type}.
Local Abbreviation Σ := (S * World)%type.

Definition on_world (f : World → World) : M Σ unit :=
  modify (λ σ : Σ, (σ.1, f σ.2)).

Definition log_call (c : Call) (w : World) : World :=
  mkWorld (store w) (script w) (calls w ++ [c]) (clock w) (console w) (supabaseUrl w).

Definition pop_reply (w : World) : World :=
  mkWorld (store w) (tail (script w)) (calls w) (clock w) (console w) (supabaseUrl w).

Definition with_store (s : Store) (w : World) : World :=
  mkWorld s (script w) (calls w) (clock w) (console w) (supabaseUrl w).

Definition log_error (e : Js.Thrown) (w : World) : World :=
  mkWorld (store w) (script w) (calls w) (clock w) (console w ++ [e]) (supabaseUrl w).

(** The reply to the request being issued: the head of the script. *)
Definition next_reply (w : World) : Reply := default Answer (head (script w)).

(** [await] of a request that changes the store: the request is logged and
    the next reply of the script decides. The resolved value is the [error]
    slot of the result. *)
Definition mutate (c : Call) (f : N → Store → Store) : M Σ (option Js.Thrown) :=
  σ ← get;
  let w := σ.2 in
  on_world (λ w, pop_reply (log_call c w));;
  match next_reply w with
  | Answer => on_world (λ w, with_store (f (clock w) (store w)) w);; ret None
  | ErrorReply e => ret (Some e)
  | Reject e => throw e
  end.

(** [await] of a query: the resolved value is the pair of the [data] and
    [error] slots of the result. *)
Definition query {D} (c : Call) (read : Store → D) : M Σ (option D * option Js.Thrown) :=
  σ ← get;
  let w := σ.2 in
  on_world (λ w, pop_reply (log_call c w));;
  match next_reply w with
  | Answer => ret (Some (read (store w)), None)
  | ErrorReply e => ret (None, Some e)
  | Reject e => throw e
  end.

(** [console.error(..., e)] *)
Definition console_error (e : Js.Thrown) : M Σ unit := on_world (log_error e).

(** [Date.now()]: the clock of the world, which stands still while a
    handler runs and moves between handlers ([System.step_env]). *)
Definition Date_now : M Σ N := σ ← get; ret (clock σ.2).

Definition set_state (f : S → S) : M Σ unit := modify (λ σ : Σ, (f σ.1, σ.2)).
Definition get_state : M Σ S := σ ← get; ret σ.1.
Definition get_world : M Σ World := σ ← get; ret σ.2.

End net.
End Net.

(** ** [AuthContext]: the current principal and its role *)

Module AuthContext.
Import Remote Net.

(** The part of the identity provider's [User] the pages read. *)
Record User := mkUser { id : string; email : string }.

Record State := mkState {
  user : option User;
  isAdmin : bool;
  loading : bool
}.

Definition initial : State := mkState None false true.

Definition setUser (u : option User) (s : State) : State :=
  mkState u (isAdmin s) (loading s).
Definition setIsAdmin (b : bool) (s : State) : State :=
  mkState (user s) b (loading s).
Definition setLoading (b : bool) (s : State) : State :=
  mkState (user s) (isAdmin s) b.

(** [!!data] for the [data] slot of a [maybeSingle] result: [null] when the
    request failed or no row matched. *)
Definition truthy {D} (data : option (option D)) : bool :=
  match data with
  | Some (Some _) => true
  | _ => false
  end.

Definition checkAdminStatus (userId : string) : M (State * World) unit :=
  try_finally
    (try_catch
       (r ← query (CallSelectAdmin userId) (select_admin userId);
        set_state (setIsAdmin (truthy r.1)))
       (λ _, set_state (setIsAdmin false)))
    (set_state (setLoading false)).

(** The continuation of [getSession()] in the mount effect, run to the end
    of the lookup it starts: nothing else happens before the reply to the
    lookup has arrived. The runs in which other events come in between are
    those of [AuthProvider] below. *)
Definition onSession (session : option User) : M (State * World) unit :=
  set_state (setUser session);;
  match session with
  | Some u => checkAdminStatus (id u)
  | None => set_state (setLoading false)
  end.

(** The [onAuthStateChange] subscriber, run to the end of the lookup it
    awaits: nothing else happens before the reply has arrived. *)
Definition onAuthStateChange (session : option User) : M (State * World) unit :=
  set_state (setUser session);;
  match session with
  | Some u => checkAdminStatus (id u)
  | None => set_state (setIsAdmin false);; set_state (setLoading false)
  end.

End AuthContext.

(** ** [AuthProvider]: session events and lookups in flight

    [checkAdminStatus] suspends at its [await]: the request is sent when the
    function is called and the rest of its body runs when the reply arrives.
    Session events that come in between run first. *)

Module AuthProvider.
Import Remote Net.

(** The context and the admin lookups that were sent and whose reply has
    not arrived, oldest first, each with the id it asks for. *)
Record State := mkState {
  context : AuthContext.State;
  pending : list string
}.

Definition initial : State := mkState AuthContext.initial [].

Definition on_context (f : AuthContext.State → AuthContext.State) (s : State) : State :=
  mkState (f (context s)) (pending s).

(** [checkAdminStatus] up to its [await]: the request is sent. *)
Definition checkAdminStatus_start (userId : string) (σ : State * World) : State * World :=
  (mkState (context σ.1) (pending σ.1 ++ [userId]),
   log_call (CallSelectAdmin userId) σ.2).

(** [checkAdminStatus] from its [await] on, run when the reply arrives; the
    reply is the next one of the script. *)
Definition checkAdminStatus_resume (userId : string) : M (AuthContext.State * World) unit :=
  try_finally
    (try_catch
       (w ← get_world;
        on_world pop_reply;;
        data ← match next_reply w with
               | Answer => ret (Some (select_admin userId (store w)))
               | ErrorReply _ => ret None
               | Reject e => throw e
               end;
        set_state (AuthContext.setIsAdmin (AuthContext.truthy data)))
       (λ _, set_state (AuthContext.setIsAdmin false)))
    (set_state (AuthContext.setLoading false)).

Inductive Event :=
  | Mounted (session : option AuthContext.User)
      (** [getSession()] of the mount effect resolves *)
  | AuthStateChange (session : option AuthContext.User)
      (** the subscriber is called *)
  | LookupReplied (i : nat).
      (** the reply to the [i]-th lookup in flight arrives *)

Definition handle (ev : Event) (σ : State * World) : State * World :=
  match ev with
  | Mounted session =>
      let σ1 := (on_context (AuthContext.setUser session) σ.1, σ.2) in
      match session with
      | Some u => checkAdminStatus_start (AuthContext.id u) σ1
      | None => (on_context (AuthContext.setLoading false) σ1.1, σ1.2)
      end
  | AuthStateChange session =>
      let σ1 := (on_context (AuthContext.setUser session) σ.1, σ.2) in
      match session with
      | Some u => checkAdminStatus_start (AuthContext.id u) σ1
      | None =>
          (on_context (AuthContext.setLoading false)
             (on_context (AuthContext.setIsAdmin false) σ1.1), σ1.2)
      end
  | LookupReplied i =>
      match pending σ.1 !! i with
      | Some userId =>
          let σ' := exec (checkAdminStatus_resume userId) (context σ.1, σ.2) in
          (mkState σ'.1 (delete i (pending σ.1)), σ'.2)
      | None => σ
      end
  end.

(** The events in the order they happen. *)
Definition run (evs : list Event) (σ : State * World) : State * World :=
  foldl (λ σ ev, handle ev σ) σ evs.

(** The session an event brings, if it is a session event. *)
Definition session_of (ev : Event) : option (option AuthContext.User) :=
  match ev with
  | Mounted session | AuthStateChange session => Some session
  | LookupReplied _ => None
  end.

(** The session of the last session event, [None] before the first. *)
Definition last_session (evs : list Event) : option AuthContext.User :=
  default None (last (omap session_of evs)).

End AuthProvider.

(** ** Page [Apply]: document selection and submission *)

Module Apply.
Import Remote Net.

(** The properties of a DOM [File] the page reads. *)
Record File := mkFile { name : string; type : string; size : N }.

Inductive DocType := passport | transcripts | motivationLetter.

(** The string a [DocType] is at run time. *)
Definition DocType_str (t : DocType) : string :=
  match t with
  | passport => "passport"
  | transcripts => "transcripts"
  | motivationLetter => "motivationLetter"
  end.

Record FormData := mkFormData {
  desiredCountry : string;
  desiredCollege : string;
  educationLevel : string;
  fieldOfStudy : string
}.

Record Files := mkFiles {
  f_passport : option File;
  f_transcripts : option File;
  f_motivationLetter : option File
}.

Record State := mkState {
  loading : bool;
  error : string;
  uploading : option string;
  formData : FormData;
  files : Files;
  (** the last value assigned to [window.location.href] *)
  location : option string
}.

Definition initial : State :=
  mkState false "" None (mkFormData "" "" "" "") (mkFiles None None None) None.

Definition setLoading (b : bool) (s : State) : State :=
  mkState b (error s) (uploading s) (formData s) (files s) (location s).
Definition setError (e : string) (s : State) : State :=
  mkState (loading s) e (uploading s) (formData s) (files s) (location s).
Definition setUploading (u : option string) (s : State) : State :=
  mkState (loading s) (error s) u (formData s) (files s) (location s).
Definition setFormData (d : FormData) (s : State) : State :=
  mkState (loading s) (error s) (uploading s) d (files s) (location s).
Definition setFiles (f : Files) (s : State) : State :=
  mkState (loading s) (error s) (uploading s) (formData s) f (location s).
Definition setLocation (l : string) (s : State) : State :=
  mkState (loading s) (error s) (uploading s) (formData s) (files s) (Some l).

(** [{ ...files, [type]: file }] *)
Definition with_file (t : DocType) (file : File) (f : Files) : Files :=
  match t with
  | passport => mkFiles (Some file) (f_transcripts f) (f_motivationLetter f)
  | transcripts => mkFiles (f_passport f) (Some file) (f_motivationLetter f)
  | motivationLetter => mkFiles (f_passport f) (f_transcripts f) (Some file)
  end.

(** The names of the four form controls. *)
Inductive Field := desiredCountry_ | desiredCollege_ | educationLevel_ | fieldOfStudy_.

(** [{ ...formData, [e.target.name]: e.target.value }] *)
Definition with_field (k : Field) (v : string) (d : FormData) : FormData :=
  match k with
  | desiredCountry_ => mkFormData v (desiredCollege d) (educationLevel d) (fieldOfStudy d)
  | desiredCollege_ => mkFormData (desiredCountry d) v (educationLevel d) (fieldOfStudy d)
  | educationLevel_ => mkFormData (desiredCountry d) (desiredCollege d) v (fieldOfStudy d)
  | fieldOfStudy_ => mkFormData (desiredCountry d) (desiredCollege d) (educationLevel d) v
  end.

Definition handleChange (k : Field) (v : string) : M (State * World) unit :=
  st ← get_state;
  set_state (setFormData (with_field k v (formData st))).

Definition validTypes : list string :=
  ["application/pdf"; "application/zip"; "application/x-zip-compressed"].

(** [file] is [e.target.files?.[0]]. *)
Definition handleFileChange (file : option File) (t : DocType) : M (State * World) unit :=
  match file with
  | Some file =>
      if negb (Js.array_includes validTypes (type file)) then
        set_state (setError ("Please upload a PDF or ZIP file for " +:+ DocType_str t))
      else if 10 * 1024 * 1024 <? size file then
        set_state (setError ("File size must be less than 10MB for " +:+ DocType_str t))
      else
        st ← get_state;
        set_state (setFiles (with_file t file (files st)));;
        set_state (setError "")
  | None => ret ()
  end.

Section with_user.
(** [user!.id]: the page renders its form for a signed-in principal only. *)
Variable user_id : string.

(** The object path built by [uploadFile], [now] being [Date.now()]. *)
Definition fileName (file : File) (path : string) (now : N) : string :=
  let fileExt := Js.split_dot_pop (name file) in
  user_id +:+ "/" +:+ path +:+ "_" +:+ pretty now +:+ "." +:+ fileExt.

Definition uploadFile (file : File) (path : string) : M (State * World) string :=
  now ← Date_now;
  uploadError ← mutate (CallUpload (fileName file path now))
                       (λ _, put_object (fileName file path now));
  match uploadError with
  | Some e => throw e
  | None =>
      w ← get_world;
      ret (getPublicUrl (supabaseUrl w) (fileName file path now))
  end.

Definition whatsappUrl : string :=
  "https://wa.me/250785358347?text=Twarayakobokeye%20muyasindamo%20Mutzing".

(** [err instanceof Error ? err.message : 'Failed to submit application'] *)
Definition describe (err : Js.Thrown) : string :=
  if Js.instanceof_Error err then Js.message err
  else "Failed to submit application".

Definition handleSubmit : M (State * World) unit :=
  set_state (setError "");;
  st ← get_state;
  match f_passport (files st), f_transcripts (files st), f_motivationLetter (files st) with
  | Some filePassport, Some fileTranscripts, Some fileMotivation =>
      set_state (setLoading true);;
      try_catch
        (set_state (setUploading (Some "passport"));;
         passportUrl ← uploadFile filePassport "passport";
         set_state (setUploading (Some "transcripts"));;
         transcriptsUrl ← uploadFile fileTranscripts "transcripts";
         set_state (setUploading (Some "motivationLetter"));;
         motivationLetterUrl ← uploadFile fileMotivation "motivation_letter";
         set_state (setUploading (Some "submitting"));;
         let row :=
           Application.mkPayload user_id
             (desiredCountry (formData st)) (desiredCollege (formData st))
             (educationLevel (formData st)) (fieldOfStudy (formData st))
             passportUrl transcriptsUrl motivationLetterUrl "Pending" in
         insertError ← mutate (CallInsert row) (λ now, insert_application now row);
         match insertError with
         | Some e => throw e
         | None => set_state (setLocation whatsappUrl)
         end)
        (λ err,
          set_state (setError (describe err));;
          set_state (setLoading false);;
          set_state (setUploading None))
  | _, _, _ => set_state (setError "Please upload all required documents")
  end.

(** The four controls carry the [required] attribute: the browser dispatches
    the submit event only when each has a non-empty value. *)
Definition required_filled (d : FormData) : bool :=
  negb (bool_decide (desiredCountry d = ""))
  && negb (bool_decide (desiredCollege d = ""))
  && negb (bool_decide (educationLevel d = ""))
  && negb (bool_decide (fieldOfStudy d = "")).

(** Activating the submit button of the form: the button is disabled while
    [loading]; the browser validates the required controls and only then
    calls the [onSubmit] handler. *)
Definition submit_form : M (State * World) unit :=
  st ← get_state;
  if loading st then ret ()
  else if required_filled (formData st) then handleSubmit
  else ret ().

End with_user.
End Apply.

(** ** Page [Dashboard]: the applicant's own applications *)

Module Dashboard.
Import Remote Net.

Record State := mkState {
  applications : list Application.t;
  loading : bool;
  studentName : string
}.

Definition initial : State := mkState [] true "".

Definition setApplications (l : list Application.t) (s : State) : State :=
  mkState l (loading s) (studentName s).
Definition setLoading (b : bool) (s : State) : State :=
  mkState (applications s) b (studentName s).
Definition setStudentName (n : string) (s : State) : State :=
  mkState (applications s) (loading s) n.

Section with_user.
Variable user_id : string.

Definition loadData : M (State * World) unit :=
  try_finally
    (try_catch
       (r ← query (CallSelectStudentName user_id) (select_student_name user_id);
        match r.1 with
        | Some (Some full_name) => set_state (setStudentName full_name)
        | _ => ret ()
        end;;
        r ← query (CallSelectOwn user_id) (select_own user_id);
        match r.2 with
        | Some error => throw error
        | None => set_state (setApplications (default [] r.1))
        end)
       (λ error, console_error error))
    (set_state (setLoading false)).

End with_user.
End Dashboard.

(** ** Page [AdminDashboard]: listing, filtering and status updates *)

Module AdminDashboard.
Import Remote Net.

Record State := mkState {
  applications : list ApplicationWithStudent;
  loading : bool;
  searchTerm : string;
  filterStatus : string;
  selectedApp : option ApplicationWithStudent;
  updatingStatus : bool;
  (** the last route passed to [navigate] *)
  route : option string
}.

Definition initial : State := mkState [] true "" "all" None false None.

Definition setApplications (l : list ApplicationWithStudent) (s : State) : State :=
  mkState l (loading s) (searchTerm s) (filterStatus s) (selectedApp s)
          (updatingStatus s) (route s).
Definition setLoading (b : bool) (s : State) : State :=
  mkState (applications s) b (searchTerm s) (filterStatus s) (selectedApp s)
          (updatingStatus s) (route s).
Definition setSearchTerm (t : string) (s : State) : State :=
  mkState (applications s) (loading s) t (filterStatus s) (selectedApp s)
          (updatingStatus s) (route s).
Definition setFilterStatus (f : string) (s : State) : State :=
  mkState (applications s) (loading s) (searchTerm s) f (selectedApp s)
          (updatingStatus s) (route s).
Definition setSelectedApp (a : option ApplicationWithStudent) (s : State) : State :=
  mkState (applications s) (loading s) (searchTerm s) (filterStatus s) a
          (updatingStatus s) (route s).
Definition setUpdatingStatus (b : bool) (s : State) : State :=
  mkState (applications s) (loading s) (searchTerm s) (filterStatus s)
          (selectedApp s) b (route s).
Definition navigate (r : string) (s : State) : State :=
  mkState (applications s) (loading s) (searchTerm s) (filterStatus s)
          (selectedApp s) (updatingStatus s) (Some r).

Definition loadApplications : M (State * World) unit :=
  try_finally
    (try_catch
       (r ← query CallSelectAll select_all;
        match r.2 with
        | Some error => throw error
        | None => set_state (setApplications (default [] r.1))
        end)
       (λ error, console_error error))
    (set_state (setLoading false)).

(** The mount effect, re-run when [user] or [isAdmin] changes. *)
Definition effect (user : option AuthContext.User) (isAdmin : bool) : M (State * World) unit :=
  if negb (bool_decide (is_Some user)) || negb isAdmin then
    set_state (navigate "/admin/login")
  else loadApplications.

(** [{ ...selectedApp, status: newStatus }] *)
Definition selected_with_status (newStatus : string) (a : ApplicationWithStudent) : ApplicationWithStudent :=
  mkJoined (Application.with_status newStatus (app a)) (student a).

Definition handleStatusUpdate (appId newStatus : string) : M (State * World) unit :=
  st ← get_state;
  set_state (setUpdatingStatus true);;
  try_finally
    (try_catch
       (error ← mutate (CallUpdateStatus appId newStatus)
                       (λ now, update_status now appId newStatus);
        match error with
        | Some e => throw e
        | None =>
            loadApplications;;
            match selectedApp st with
            | Some sel =>
                if bool_decide (Application.id (app sel) = appId)
                then set_state (setSelectedApp (Some (selected_with_status newStatus sel)))
                else ret ()
            | None => ret ()
            end
        end)
       (λ error, console_error error))
    (set_state (setUpdatingStatus false)).

(** The callback of [applications.filter]. *)
Definition matches (searchTerm filterStatus : string) (a : ApplicationWithStudent) : bool :=
  let matchesSearch :=
    Js.includes (Js.toLowerCase (Student.full_name (student a))) (Js.toLowerCase searchTerm)
    || Js.includes (Js.toLowerCase (Application.desired_country (app a))) (Js.toLowerCase searchTerm)
    || Js.includes (Js.toLowerCase (Application.desired_college (app a))) (Js.toLowerCase searchTerm) in
  let matchesFilter :=
    bool_decide (filterStatus = "all")
    || bool_decide (Application.status (app a) = filterStatus) in
  matchesSearch && matchesFilter.

Definition filteredApplications (applications : list ApplicationWithStudent)
    (searchTerm filterStatus : string) : list ApplicationWithStudent :=
  List.filter (matches searchTerm filterStatus) applications.

(** The three buttons of the details dialog and the literal each passes to
    [handleStatusUpdate]. *)
Inductive Button := MarkAsReviewed | Accept | Reject_.

Definition button_status (b : Button) : string :=
  match b with
  | MarkAsReviewed => "Reviewed"
  | Accept => "Accepted"
  | Reject_ => "Rejected"
  end.

(** What can happen to the mounted page. *)
Inductive Event :=
  | RunEffect
  | TypeSearch (t : string)
  | ChooseFilter (f : string)
  | ViewDetails (a : ApplicationWithStudent)
  | CloseDetails
  | Click (b : Button).

(** The controls exist in the rendered tree: while [loading] the page renders
    the spinner only; a row and its button exist for each filtered
    application; the dialog and its buttons exist while an application is
    selected, the status buttons being disabled while [updatingStatus]. *)
Definition enabled (st : State) (ev : Event) : Prop :=
  match ev with
  | RunEffect => True
  | TypeSearch _ | ChooseFilter _ => loading st = false
  | ViewDetails a =>
      loading st = false
      ∧ a ∈ filteredApplications (applications st) (searchTerm st) (filterStatus st)
  | CloseDetails => loading st = false ∧ is_Some (selectedApp st)
  | Click _ =>
      loading st = false ∧ is_Some (selectedApp st) ∧ updatingStatus st = false
  end.

Definition handle (user : option AuthContext.User) (isAdmin : bool) (ev : Event) : M (State * World) unit :=
  match ev with
  | RunEffect => effect user isAdmin
  | TypeSearch t => set_state (setSearchTerm t)
  | ChooseFilter f => set_state (setFilterStatus f)
  | ViewDetails a => set_state (setSelectedApp (Some a))
  | CloseDetails => set_state (setSelectedApp None)
  | Click b =>
      st ← get_state;
      match selectedApp st with
      | Some sel => handleStatusUpdate (Application.id (app sel)) (button_status b)
      | None => ret ()
      end
  end.

(** A run of the mounted page under a fixed principal and role: each event
    finds its control in the tree rendered from the current state. *)
Inductive runs (user : option AuthContext.User) (isAdmin : bool) :
    State * World → list Event → State * World → Prop :=
  | runs_nil σ : runs user isAdmin σ [] σ
  | runs_cons σ ev evs σ' :
      enabled σ.1 ev →
      runs user isAdmin (exec (handle user isAdmin ev) σ) evs σ' →
      runs user isAdmin σ (ev :: evs) σ'.

End AdminDashboard.

(** ** The portal as a transition system over the world *)

Module System.
Import Remote.

(** One step: the environment moves (time passes, the remote side decides on
    its coming replies), or a handler of one of the pages runs. The state of
    the page the handler runs on is not constrained. *)
Inductive step : World → World → Prop :=
  | step_env w script' clock' :
      clock w ≤ clock' →
      step w (mkWorld (store w) script' (calls w) clock' (console w) (supabaseUrl w))
  | step_session st session w :
      step w (exec (AuthContext.onAuthStateChange session) (st, w)).2
  | step_select_file st file t w :
      step w (exec (Apply.handleFileChange file t) (st, w)).2
  | step_submit uid st w :
      step w (exec (Apply.handleSubmit uid) (st, w)).2
  | step_dashboard uid st w :
      step w (exec (Dashboard.loadData uid) (st, w)).2
  | step_admin user isAdmin st ev w :
      AdminDashboard.enabled st ev →
      step w (exec (AdminDashboard.handle user isAdmin ev) (st, w)).2.

(** No application has been submitted yet. *)
Definition initial (w : World) : Prop := applications (store w) = [].

Definition reachable (w : World) : Prop := ∃ w0, initial w0 ∧ rtc step w0 w.

End System.

(** ** Properties of the store *)

(** [m] keeps [Q] true of the store, however it completes. *)
Definition stable {S A} (Q : Remote.Store → Prop) (m : M (S * Remote.World) A) : Prop :=
  ∀ σ, Q (Remote.store σ.2) → Q (Remote.store (exec m σ).2).

(** Every application of the store carries one of the four status values. *)
Definition statuses_valid (s : Remote.Store) : Prop :=
  Forall (λ a, Application.status a ∈ Application.statuses) (Remote.applications s).

(** The store holds the rows [old], followed by rows of status Pending. *)
Definition grown_by_pending (old : list Application.t) (s : Remote.Store) : Prop :=
  ∃ new, Remote.applications s = old ++ new
         ∧ Forall (λ a, Application.status a = "Pending") new.

(** ** Incomplete submissions *)

(** One of the three documents has not been selected. *)
Definition document_missing (st : Apply.State) : Prop :=
  Apply.f_passport (Apply.files st) = None
  ∨ Apply.f_transcripts (Apply.files st) = None
  ∨ Apply.f_motivationLetter (Apply.files st) = None.

(** One of the four descriptive fields is empty. *)
Definition field_empty (st : Apply.State) : Prop :=
  Apply.desiredCountry (Apply.formData st) = ""
  ∨ Apply.desiredCollege (Apply.formData st) = ""
  ∨ Apply.educationLevel (Apply.formData st) = ""
  ∨ Apply.fieldOfStudy (Apply.formData st) = "".

(** ** Lower-casing of ASCII text, character by character *)

Module Ascii7.

(** The string of the images of the characters of [s]. *)
Fixpoint smap (g : ascii → ascii) (s : string) : string :=
  match s with
  | EmptyString => EmptyString
  | String c s' => String (g c) (smap g s')
  end.

(** What [toLowerCase] makes of the one-character string [c], for an ASCII
    character [c]. *)
Definition lower_byte (c : ascii) : ascii :=
  match Js.toLowerCase (String c EmptyString) with
  | String d _ => d
  | EmptyString => c
  end.

(** The 128 characters of ASCII. *)
Definition all : list ascii := ascii_of_nat <$> seq 0 128.

End Ascii7.

(** ** The specification's words for the administrator's filter *)


(** Row [a'] is row [a] after a status update of the application [appId] at
    instant [now]: the status and [updated_at] of that application are set,
    everything else is as before. *)
Definition status_updated (now : N) (appId newStatus : string) (a a' : Application.t) : Prop :=
  (Application.id a = appId →
     a' = Application.mk (Application.id a) (Application.student_id a)
            (Application.desired_country a) (Application.desired_college a)
            (Application.education_level a) (Application.field_of_study a)
            (Application.passport_url a) (Application.transcripts_url a)
            (Application.motivation_letter_url a) newStatus
            (Application.admin_notes a) (Application.created_at a) now)
  ∧ (Application.id a ≠ appId → a' = a).



(** [a] may be listed before [b] in a newest-first listing. *)
Definition newest_first (a b : ApplicationWithStudent) : Prop :=
  Remote.newer_first (app a) (app b).

(** ** Examples used to exercise the statements *)

Module Example.
Import Remote.

Definition alice : Student.t := Student.mk "u1" "Alice Harvard" "a@x.com" "0780" 10 10.
Definition bob : Student.t := Student.mk "u2" "Bob" "b@x.com" "0781" 11 11.

Definition store0 : Store := mkStore [] [alice; bob] {["root"]} [] 1.

Definition world0 (replies : list Reply) : World :=
  mkWorld store0 replies [] 1700 [] "https://p.supabase.co".

Definition pdf (n : string) : Apply.File := Apply.mkFile n "application/pdf" 2048.

Definition three_files : Apply.Files :=
  Apply.mkFiles (Some (pdf "id.pdf")) (Some (pdf "grades.pdf")) (Some (pdf "letter.pdf")).

(** The form of end-to-end scenario 1. *)
Definition form_filled : Apply.State :=
  Apply.mkState false "" None
    (Apply.mkFormData "Canada" "UBC" "Bachelor's Degree" "Engineering")
    three_files None.

(** The same form with no country chosen. *)
Definition form_no_country : Apply.State :=
  Apply.mkState false "" None
    (Apply.mkFormData "" "UBC" "Bachelor's Degree" "Engineering")
    three_files None.

(** The world after alice has submitted [form_filled]. *)
Definition world1 : World :=
  Eval vm_compute in (exec (Apply.handleSubmit "u1") (form_filled, world0 [])).2.

Definition row1 : Application.t :=
  Eval vm_compute in default (Application.mk "" "" "" "" "" "" "" "" "" "" None 0 0)
                             (head (applications (store world1))).

Definition joined1 : ApplicationWithStudent := mkJoined row1 alice.

(** The admin page showing [row1] in its details dialog. *)
Definition admin_page : AdminDashboard.State :=
  AdminDashboard.mkState [joined1] false "" "all" (Some joined1) false None.

Definition boom : Js.Thrown := Js.mkThrown true "network down".

Definition row_of (id sid country college status : string) (t : N) : Application.t :=
  Application.mk id sid country college "Diploma" "Law" "p" "t" "m" status None t t.

(** A listing of three applications, newest first. *)
Definition listing : list ApplicationWithStudent :=
  [mkJoined (row_of "3" "u2" "Canada" "UBC" "Pending" 30) bob;
   mkJoined (row_of "2" "u1" "France" "Sorbonne" "Accepted" 20) alice;
   mkJoined (row_of "1" "u2" "United States" "HARVARD University" "Accepted" 10) bob].

(** A store with applications of both students, in insertion order. *)
Definition store2 : Store :=
  mkStore [row_of "1" "u2" "United States" "HARVARD University" "Accepted" 10;
           row_of "2" "u1" "France" "Sorbonne" "Accepted" 20;
           row_of "3" "u2" "Canada" "UBC" "Pending" 30;
           row_of "4" "u1" "Japan" "Todai" "Pending" 40]
          [alice; bob] {["root"]} [] 5.

Definition world2 (replies : list Reply) : World :=
  mkWorld store2 replies [] 1700 [] "https://p.supabase.co".




(** An application for an institution with an accented name. *)
Definition joined_ecole : ApplicationWithStudent :=
  mkJoined (row_of "6" "u2" "France" "École Polytechnique" "Pending" 60) bob.

End Example.

(** ** Status badges of the two dashboards *)

Module Badge.

Inductive Glyph := Clock | Eye | CheckCircle | XCircle.

(** A rendered icon element: its component and its [className]. *)
Record Icon := mkIcon { glyph : Glyph; className : string }.

(** [getStatusIcon], written with the same text in [Dashboard] and in
    [AdminDashboard]; [None] is [null]. *)
Definition getStatusIcon (status : string) : option Icon :=
  if bool_decide (status = "Pending") then Some (mkIcon Clock "w-5 h-5 text-yellow-600")
  else if bool_decide (status = "Reviewed") then Some (mkIcon Eye "w-5 h-5 text-blue-600")
  else if bool_decide (status = "Accepted") then Some (mkIcon CheckCircle "w-5 h-5 text-green-600")
  else if bool_decide (status = "Rejected") then Some (mkIcon XCircle "w-5 h-5 text-red-600")
  else None.

(** [getStatusColor], written with the same text in both dashboards. *)
Definition getStatusColor (status : string) : string :=
  if bool_decide (status = "Pending") then "bg-yellow-100 text-yellow-800"
  else if bool_decide (status = "Reviewed") then "bg-blue-100 text-blue-800"
  else if bool_decide (status = "Accepted") then "bg-green-100 text-green-800"
  else if bool_decide (status = "Rejected") then "bg-red-100 text-red-800"
  else "bg-gray-100 text-gray-800".

End Badge.

(** ** The [Apply] page as a whole *)

Module ApplyPage.
Import Remote Net Apply.

(** [files[type]] *)
Definition get_file (t : DocType) (f : Files) : option File :=
  match t with
  | passport => f_passport f
  | transcripts => f_transcripts f
  | motivationLetter => f_motivationLetter f
  end.

(** [formData[name]] *)
Definition get_field (k : Field) (d : FormData) : string :=
  match k with
  | desiredCountry_ => desiredCountry d
  | desiredCollege_ => desiredCollege d
  | educationLevel_ => educationLevel d
  | fieldOfStudy_ => fieldOfStudy d
  end.

(** The file passes the two tests of [handleFileChange]. *)
Definition acceptable (file : File) : Prop :=
  type file ∈ validTypes ∧ size file ≤ 10 * 1024 * 1024.

(** What the user can do on the page: edit a control, choose a file in one
    of the three file inputs, activate the submit button. *)
Inductive Event :=
  | Change (k : Field) (v : string)
  | SelectFile (file : option File) (t : DocType)
  | Submit.

Definition handle (user_id : string) (ev : Event) : M (State * World) unit :=
  match ev with
  | Change k v => handleChange k v
  | SelectFile file t => handleFileChange file t
  | Submit => submit_form user_id
  end.

(** The page and the world after a sequence of events. *)
Fixpoint run (user_id : string) (evs : list Event) (σ : State * World) : State * World :=
  match evs with
  | [] => σ
  | ev :: evs => run user_id evs (exec (handle user_id ev) σ)
  end.

End ApplyPage.

(** ** Registration: [signUp] of [AuthContext] *)

Module Identity.
Import Remote Net.

(** What the identity provider does with a [signUp] request. *)
Inductive AuthReply :=
  | AuthData (user : option AuthContext.User)  (** [{ data: { user }, error: null }] *)
  | AuthError (e : Js.Thrown)                  (** [{ data, error: e }] *)
  | AuthReject (e : Js.Thrown).                (** the awaited promise rejects *)

(** The requests of a registration. *)
Inductive Request :=
  | ReqSignUp (email password : string)
  | ReqInsertStudent (id full_name email phone : string).

Record Provider := mkProvider {
  (** replies to the coming [signUp] requests; no user once exhausted *)
  auth_script : list AuthReply;
  (** requests of registrations so far, oldest first *)
  requests : list Request
}.

Definition log_request (r : Request) (p : Provider) : Provider :=
  mkProvider (auth_script p) (requests p ++ [r]).

Definition pop_auth (p : Provider) : Provider :=
  mkProvider (tail (auth_script p)) (requests p).

Definition next_auth (p : Provider) : AuthReply :=
  default (AuthData None) (head (auth_script p)).

(** Modelled from the spec: the table definition of [students] is not part
    of the client code; both timestamps of an inserted profile are the
    instant of insertion. *)
Definition insert_student (now : N) (id full_name email phone : string) (s : Store) : Store :=
  mkStore (applications s)
          (students s ++ [Student.mk id full_name email phone now now])
          (admins s) (objects s) (next_id s).

(** [await supabase.auth.signUp({ email, password })]: the resolved value is
    the pair of [data.user] and [error]. *)
Definition auth_signUp (email password : string) :
    M (Provider * World) (option AuthContext.User * option Js.Thrown) :=
  σ ← get;
  let p := σ.1 in
  set_state (λ p, pop_auth (log_request (ReqSignUp email password) p));;
  match next_auth p with
  | AuthData user => ret (user, None)
  | AuthError e => ret (None, Some e)
  | AuthReject e => throw e
  end.

(** [await supabase.from('students').insert({ id, full_name, email, phone })]:
    the resolved value is the [error] slot. *)
Definition insert_profile (id full_name email phone : string) :
    M (Provider * World) (option Js.Thrown) :=
  σ ← get;
  let w := σ.2 in
  set_state (log_request (ReqInsertStudent id full_name email phone));;
  on_world pop_reply;;
  match next_reply w with
  | Answer =>
      on_world (λ w, with_store (insert_student (clock w) id full_name email phone (store w)) w);;
      ret None
  | ErrorReply e => ret (Some e)
  | Reject e => throw e
  end.

(** The resolved value is the [error] field of the returned object. *)
Definition signUp (email password fullName phone : string) :
    M (Provider * World) (option Js.Thrown) :=
  try_catch
    (r ← auth_signUp email password;
     match r.2 with
     | Some authError => throw authError
     | None =>
         match r.1 with
         | None => throw (Js.mkThrown true "Registration failed")
         | Some user =>
             profileError ← insert_profile (AuthContext.id user) fullName email phone;
             match profileError with
             | Some e => throw e
             | None => ret None
             end
         end
     end)
    (λ error, ret (Some error)).

End Identity.

(** ** What a status update leaves alone *)

(** Rows [a] and [a'] agree on every column but [status] and [updated_at]. *)
Definition same_but_status (a a' : Application.t) : Prop :=
  Application.with_updated_at 0 (Application.with_status "" a)
  = Application.with_updated_at 0 (Application.with_status "" a').

(** The store keeps its applications up to status and [updated_at], and a
    status is either kept or one of those the buttons write. *)
Definition kept_up_to_status (old s : Remote.Store) : Prop :=
  Forall2 (λ a a', same_but_status a a'
                   ∧ (Application.status a' = Application.status a
                      ∨ Application.status a' ∈ ["Reviewed"; "Accepted"; "Rejected"]))
          (Remote.applications old) (Remote.applications s)
  ∧ Remote.students s = Remote.students old
  ∧ Remote.admins s = Remote.admins old
  ∧ Remote.objects s = Remote.objects old.

(** The store holds the applications of [old], in their order and each up
    to status and [updated_at], followed by further applications. *)
Definition extends_applications (old : list Application.t) (s : Remote.Store) : Prop :=
  ∃ kept new, Remote.applications s = kept ++ new ∧ Forall2 same_but_status old kept.

(** Every application of the store refers to a student of the store. *)
Definition students_present (s : Remote.Store) : Prop :=
  ∀ a, a ∈ Remote.applications s →
       ∃ st, st ∈ Remote.students s ∧ Student.id st = Application.student_id a.

(** * Proofs *)

(** ** Facts about the string primitives *)

Section string_facts.

Local Arguments String.append !_ _ / : simpl nomatch.

Lemma startsWith_spec s t :
  Js.startsWith s t = true ↔ ∃ post, s = t +:+ post.
Proof.
  revert s; induction t as [|d t IH]; intros s; simpl.
  - split; [intros _; by exists s | done].
  - destruct s as [|c s]; simpl.
    + split; [done | intros [post Hp]; discriminate].
    + rewrite andb_true_iff, bool_decide_eq_true, IH. split.
      * intros [-> [post ->]]. by exists post.
      * intros [post Hp]. injection Hp as -> ->. eauto.
Qed.

Lemma includes_spec s t :
  Js.includes s t = true ↔ ∃ pre post, s = pre +:+ t +:+ post.
Proof.
  induction s as [|c s IH].
  - simpl. rewrite startsWith_spec. split.
    + intros [post Hp]. by exists EmptyString, post.
    + intros (pre & post & Hp). destruct pre; [|discriminate].
      simpl in Hp. eauto.
  - cbn [Js.includes]. rewrite orb_true_iff, startsWith_spec, IH. split.
    + intros [[post Hp] | (pre & post & Hp)].
      * by exists EmptyString, post.
      * exists (String c pre), post. simpl. by rewrite Hp.
    + intros (pre & post & Hp). destruct pre as [|c' pre]; simpl in Hp.
      * left. eauto.
      * right. injection Hp as -> ->. eauto.
Qed.





Lemma elem_of_all_ascii c : N_of_ascii c < 128 → c ∈ Ascii7.all.
Proof.
  intros Hc. unfold Ascii7.all. apply list_elem_of_fmap.
  exists (nat_of_ascii c). split; [by rewrite ascii_nat_embedding|].
  apply elem_of_seq. unfold nat_of_ascii. lia.
Qed.

(** On the 128 characters of ASCII the lower-case mapping gives one ASCII
    character, and none of them is the capital sigma. *)
Lemma lower_point_ascii c :
  N_of_ascii c < 128 →
  N_of_ascii c ≠ 931
  ∧ Unicode.lower_point (N_of_ascii c) = [N_of_ascii (Ascii7.lower_byte c)]
  ∧ N_of_ascii (Ascii7.lower_byte c) < 128.
Proof.
  intros Hc. apply elem_of_all_ascii in Hc. revert c Hc. apply Forall_forall.
  apply (bool_decide_unpack _). by vm_compute.
Qed.

(** Lower-casing identifies exactly the ASCII characters that are the same
    letter. *)
Lemma lower_byte_same_letter c d :
  N_of_ascii c < 128 → N_of_ascii d < 128 →
  Ascii7.lower_byte c = Ascii7.lower_byte d ↔ Wording.same_letter c d.
Proof.
  intros Hc Hd. apply elem_of_all_ascii in Hc, Hd.
  assert (Forall (λ c, Forall (λ d, Ascii7.lower_byte c = Ascii7.lower_byte d
                                    ↔ Wording.same_letter c d) Ascii7.all)
                 Ascii7.all) as Hall.
  { apply (bool_decide_unpack _). by vm_compute. }
  pose proof (proj1 (Forall_forall _ _) Hall c Hc) as Hrow.
  exact (proj1 (Forall_forall _ _) Hrow d Hd).
Qed.

Lemma decode_ascii_cons c s :
  N_of_ascii c < 128 → Utf8.decode (String c s) = N_of_ascii c :: Utf8.decode s.
Proof.
  intros H. apply N.ltb_lt in H. cbn [Utf8.decode]. cbv zeta. by rewrite H.
Qed.

Lemma encode_point_ascii d :
  N_of_ascii d < 128 → Utf8.encode_point (N_of_ascii d) = String d EmptyString.
Proof.
  intros H. apply N.ltb_lt in H. unfold Utf8.encode_point.
  by rewrite H, ascii_N_embedding.
Qed.

Lemma lower_points_ascii s before :
  Wording.ascii_text s →
  Utf8.encode (Unicode.lower_points before (Utf8.decode s))
  = Ascii7.smap Ascii7.lower_byte s.
Proof.
  revert before. induction s as [|c s IH]; intros before Hs; [done|].
  destruct Hs as [Hc Hs].
  destruct (lower_point_ascii c Hc) as (Hne & Hl & Hlt).
  rewrite (decode_ascii_cons c s Hc). cbn [Unicode.lower_points].
  apply N.eqb_neq in Hne. rewrite Hne, Hl.
  change ([N_of_ascii (Ascii7.lower_byte c)] ++ ?l)
    with (N_of_ascii (Ascii7.lower_byte c) :: l).
  change (Utf8.encode (?x :: ?l)) with (Utf8.encode_point x +:+ Utf8.encode l).
  rewrite (encode_point_ascii _ Hlt), (IH _ Hs). done.
Qed.

(** On ASCII text [toLowerCase] works character by character. *)
Lemma toLowerCase_ascii s :
  Wording.ascii_text s → Js.toLowerCase s = Ascii7.smap Ascii7.lower_byte s.
Proof. apply lower_points_ascii. Qed.

Lemma toLowerCase_empty : Js.toLowerCase EmptyString = EmptyString.
Proof. reflexivity. Qed.


Lemma smap_eq_ignore_case s t :
  Wording.ascii_text s → Wording.ascii_text t →
  Ascii7.smap Ascii7.lower_byte s = Ascii7.smap Ascii7.lower_byte t
  ↔ Wording.eq_ignore_case s t.
Proof.
  intros Hs Ht. split.
  - revert t Ht; induction s as [|c s IH]; intros [|d t] Ht H; simpl in H;
      try discriminate; [constructor|].
    destruct Hs as [Hc Hs], Ht as [Hd Ht]. injection H as Hcd Hst.
    constructor; [by apply lower_byte_same_letter | by apply IH].
  - intros H. induction H as [|c d s t Hcd _ IH]; simpl; [done|].
    destruct Hs as [Hc Hs], Ht as [Hd Ht].
    apply lower_byte_same_letter in Hcd; [|done..]. by rewrite Hcd, IH.
Qed.


End string_facts.

(** ** Reasoning about handlers: properties of the store kept by a run *)

(** Unfolds the primitive operations of handlers down to state passing. *)
Ltac run_prims :=
  unfold exec, outcome, Net.query, Net.mutate, Net.on_world, Net.console_error,
    Net.Date_now, Net.set_state, Net.get_state, Net.get_world, Net.on_world,
    mbind, M_bind, bind, ret, throw, get, modify, try_catch, try_finally in *;
  simpl in *.

Section stable.
Import Remote Net.
Context {S : Type}.
Local Abbreviation Σ := (S * World)%type.

Variable Q : Store → Prop.

Lemma stable_ret {A} (a : A) : stable Q (ret a : M Σ A).
Proof. intros σ H. exact H. Qed.

Lemma stable_throw {A} e : stable Q (throw e : M Σ A).
Proof. intros σ H. exact H. Qed.

Lemma stable_bind {A B} (m : M Σ A) (k : A → M Σ B) :
  stable Q m → (∀ a, stable Q (k a)) → stable Q (m ≫= k).
Proof.
  intros Hm Hk σ H. specialize (Hm σ H).
  unfold exec, mbind, M_bind, bind in *.
  destruct (m σ) as [[a|e] σ']; simpl in *; [by apply Hk | done].
Qed.

Lemma stable_try_catch {A} (m : M Σ A) h :
  stable Q m → (∀ e, stable Q (h e)) → stable Q (try_catch m h).
Proof.
  intros Hm Hh σ H. specialize (Hm σ H).
  unfold exec, try_catch in *.
  destruct (m σ) as [[a|e] σ']; simpl in *; [done | by apply Hh].
Qed.

Lemma stable_try_finally {A} (m : M Σ A) f :
  stable Q m → stable Q f → stable Q (try_finally m f).
Proof.
  intros Hm Hf σ H. specialize (Hm σ H).
  unfold exec, try_finally in *.
  destruct (m σ) as [r σ']; simpl in *. specialize (Hf σ' Hm).
  unfold exec in Hf. by destruct (f σ') as [[a|e] σ''].
Qed.

Lemma stable_set_state (f : S → S) : stable Q (set_state f).
Proof. intros σ H. exact H. Qed.

Lemma stable_get_state : stable Q (get_state (S:=S)).
Proof. intros σ H. exact H. Qed.

Lemma stable_get_world : stable Q (get_world (S:=S)).
Proof. intros σ H. exact H. Qed.

Lemma stable_Date_now : stable Q (Date_now (S:=S)).
Proof. intros σ H. exact H. Qed.

Lemma stable_console_error e : stable Q (console_error (S:=S) e).
Proof. intros σ H. exact H. Qed.

Lemma stable_query {D} c (read : Store → D) : stable Q (query (S:=S) c read).
Proof.
  intros [st w] H. run_prims.
  by destruct (next_reply w).
Qed.

Lemma stable_mutate c (f : N → Store → Store) :
  (∀ now s, Q s → Q (f now s)) → stable Q (mutate (S:=S) c f).
Proof.
  intros Hf [st w] H. run_prims.
  destruct (next_reply w); simpl; [by apply Hf | done | done].
Qed.

End stable.

Create HintDb stable.

Global Hint Resolve stable_ret stable_throw stable_set_state stable_get_state
  stable_get_world stable_Date_now stable_console_error stable_query : stable.

(** Takes a handler apart along its syntax. *)
Ltac stable_step :=
  lazymatch goal with
  | |- stable _ (_ ≫= _) => apply stable_bind; [|intros ?]
  | |- stable _ (try_catch _ _) => apply stable_try_catch; [|intros ?]
  | |- stable _ (try_finally _ _) => apply stable_try_finally
  | |- stable _ (Net.mutate _ _) => apply stable_mutate; intros ? ? ?
  | |- stable _ (match ?x with _ => _ end) => destruct x
  | |- stable _ (if ?b then _ else _) => destruct b
  | |- stable _ _ => solve [auto with stable]
  end.

(** ** Status values *)

Section status.
Import Remote Net.

Lemma insert_application_valid now p s :
  Application.p_status p ∈ Application.statuses →
  statuses_valid s → statuses_valid (insert_application now p s).
Proof.
  unfold statuses_valid. intros Hp Hs. simpl.
  apply Forall_app. split; [done|]. constructor; [exact Hp | constructor].
Qed.

Lemma update_status_valid now appId newStatus s :
  newStatus ∈ Application.statuses →
  statuses_valid s → statuses_valid (update_status now appId newStatus s).
Proof.
  unfold statuses_valid. intros Hn Hs. simpl.
  apply Forall_fmap. eapply Forall_impl; [exact Hs|].
  intros a Ha. unfold update_row. simpl. by case_bool_decide.
Qed.

Lemma button_status_valid b :
  AdminDashboard.button_status b ∈ Application.statuses.
Proof. destruct b; by apply (bool_decide_unpack _). Qed.

Lemma checkAdminStatus_stable Q uid :
  stable Q (AuthContext.checkAdminStatus uid).
Proof. unfold AuthContext.checkAdminStatus. repeat stable_step. Qed.

Lemma onAuthStateChange_stable Q session :
  stable Q (AuthContext.onAuthStateChange session).
Proof.
  unfold AuthContext.onAuthStateChange. stable_step; [stable_step|].
  destruct session; [apply checkAdminStatus_stable | repeat stable_step].
Qed.

Lemma handleFileChange_stable Q file t :
  stable Q (Apply.handleFileChange file t).
Proof. unfold Apply.handleFileChange. repeat stable_step. Qed.

Lemma loadData_stable Q uid : stable Q (Dashboard.loadData uid).
Proof. unfold Dashboard.loadData. repeat stable_step. Qed.

Lemma loadApplications_stable Q : stable Q AdminDashboard.loadApplications.
Proof. unfold AdminDashboard.loadApplications. repeat stable_step. Qed.

Lemma uploadFile_stable Q uid file path :
  (∀ p s, Q s → Q (put_object p s)) →
  stable Q (Apply.uploadFile uid file path).
Proof. intros HQ. unfold Apply.uploadFile. repeat stable_step. by apply HQ. Qed.

Lemma handleSubmit_stable Q uid :
  (∀ p s, Q s → Q (put_object p s)) →
  (∀ now p s, Application.p_status p = "Pending" →
     Q s → Q (insert_application now p s)) →
  stable Q (Apply.handleSubmit uid).
Proof.
  intros Hput Hins. unfold Apply.handleSubmit.
  repeat first [by apply uploadFile_stable | stable_step]. by apply Hins.
Qed.

Lemma handleStatusUpdate_stable Q appId newStatus :
  (∀ now s, Q s → Q (update_status now appId newStatus s)) →
  stable Q (AdminDashboard.handleStatusUpdate appId newStatus).
Proof.
  intros Hupd. unfold AdminDashboard.handleStatusUpdate.
  repeat (apply loadApplications_stable || stable_step). by apply Hupd.
Qed.

Lemma handle_stable Q user isAdmin ev :
  (∀ now appId b s,
     Q s → Q (update_status now appId (AdminDashboard.button_status b) s)) →
  stable Q (AdminDashboard.handle user isAdmin ev).
Proof.
  intros Hupd. destruct ev; simpl; try solve [repeat stable_step].
  - unfold AdminDashboard.effect.
    stable_step; [stable_step | apply loadApplications_stable].
  - stable_step; [stable_step|]. stable_step; [|stable_step].
    apply handleStatusUpdate_stable. intros. apply Hupd. done.
Qed.

(** Every step of the portal keeps the status values valid. *)
Lemma step_statuses_valid w w' :
  System.step w w' → statuses_valid (store w) → statuses_valid (store w').
Proof.
  intros Hstep Hw. destruct Hstep as
    [w script' clock' _ | st session w | st file t w | uid st w | uid st w
    | user isAdmin st ev w _]; simpl.
  - done.
  - by apply (onAuthStateChange_stable statuses_valid session (st, w)).
  - by apply (handleFileChange_stable statuses_valid file t (st, w)).
  - apply (handleSubmit_stable statuses_valid uid); [done| |done].
    intros now p s Hp. apply insert_application_valid. rewrite Hp.
    by apply (bool_decide_unpack _).
  - by apply (loadData_stable statuses_valid uid (st, w)).
  - apply (handle_stable statuses_valid user isAdmin ev); [|done].
    intros now appId b s. apply update_status_valid, button_status_valid.
Qed.

End status.


(** ** The status of an application *)

Section status_claim.
Import Remote.

Lemma reachable_statuses_valid w :
  System.reachable w → statuses_valid (store w).
Proof.
  intros (w0 & Hinit & Hsteps).
  assert (statuses_valid (store w0)) as H0.
  { unfold statuses_valid. rewrite Hinit. constructor. }
  clear Hinit. induction Hsteps as [w|w1 w2 w3 Hstep _ IH]; [done|].
  apply IH. by eapply step_statuses_valid.
Qed.

Lemma handleSubmit_grows_by_pending uid st w :
  grown_by_pending (applications (store w))
    (store (exec (Apply.handleSubmit uid) (st, w)).2).
Proof.
  apply (handleSubmit_stable (grown_by_pending (applications (store w))) uid).
  - intros p s (new & Hs & Hnew). by exists new.
  - intros now p s Hp (new & Hs & Hnew). eexists (new ++ [_]). simpl. split.
    + rewrite Hs. by rewrite <- (assoc_L (++)).
    + apply Forall_app. split; [done|]. constructor; [exact Hp | constructor].
  - exists []. split; [by rewrite app_nil_r | constructor].
Qed.

(** C4. In every reachable state of the portal each application of the store
    has one of the statuses Pending, Reviewed, Accepted, Rejected; a
    submission adds rows of status Pending only, and each status button
    writes one of Reviewed, Accepted, Rejected. *)
Theorem status_in_range_always w :
  System.reachable w →
  Forall (λ a, Application.status a ∈ ["Pending"; "Reviewed"; "Accepted"; "Rejected"])
         (applications (store w))
  ∧ (∀ uid st,
       ∃ new,
         applications (store (exec (Apply.handleSubmit uid) (st, w)).2)
         = applications (store w) ++ new
         ∧ Forall (λ a, Application.status a = "Pending") new)
  ∧ (∀ b, AdminDashboard.button_status b ∈ ["Reviewed"; "Accepted"; "Rejected"]).
Proof.
  intros Hw. split; [|split].
  - by apply reachable_statuses_valid.
  - intros uid st. apply handleSubmit_grows_by_pending.
  - intros b. destruct b; by apply (bool_decide_unpack _).
Qed.

(** The world after alice's submission and an administrator's click on
    Accept in the details dialog. *)
Lemma example_run_reachable :
  System.reachable
    (exec (AdminDashboard.handle (Some (AuthContext.mkUser "root" "r@x.com")) true
             (AdminDashboard.Click AdminDashboard.Accept))
          (Example.admin_page,
           (exec (Apply.handleSubmit "u1") (Example.form_filled, Example.world0 [])).2)).2.
Proof.
  exists (Example.world0 []). split; [reflexivity|].
  eapply rtc_l; [apply (System.step_submit "u1" Example.form_filled)|].
  eapply rtc_l; [|apply rtc_refl].
  apply System.step_admin. simpl. split; [done|]. split; [by eexists | done].
Qed.

Lemma status_in_range_always_witness :
  Forall (λ a, Application.status a ∈ ["Pending"; "Reviewed"; "Accepted"; "Rejected"])
    (applications (store
       (exec (AdminDashboard.handle (Some (AuthContext.mkUser "root" "r@x.com")) true
                (AdminDashboard.Click AdminDashboard.Accept))
             (Example.admin_page,
              (exec (Apply.handleSubmit "u1") (Example.form_filled, Example.world0 [])).2)).2)).
Proof.
  exact (proj1 (status_in_range_always _ example_run_reachable)).
Defined.

End status_claim.

(** ** Selecting a document *)

Section file_selection.
Import Remote.

(** C7. A selected file is taken (stored under its document type, the error
    cleared) when its declared type is one of the PDF and ZIP media types and
    its size is at most 10 MiB; otherwise the selection is refused with an
    error message and the stored documents stay as they were. Either way no
    request is issued and the store is untouched. In particular a file of
    type image/png offered as the passport is refused with the message for
    the passport. *)
Theorem file_selection_checked st w file t :
  let σ' := exec (Apply.handleFileChange (Some file) t) (st, w) in
  let acceptable :=
    Apply.type file ∈ ["application/pdf"; "application/zip"; "application/x-zip-compressed"]
    ∧ Apply.size file ≤ 10485760 in
  σ'.2 = w
  ∧ (acceptable →
       σ'.1 = Apply.setError "" (Apply.setFiles (Apply.with_file t file (Apply.files st)) st))
  ∧ (¬ acceptable → Apply.files σ'.1 = Apply.files st ∧ Apply.error σ'.1 ≠ "")
  ∧ (Apply.type file = "image/png" → t = Apply.passport →
       σ'.1 = Apply.setError "Please upload a PDF or ZIP file for passport" st).
Proof.
  unfold Apply.handleFileChange, Js.array_includes, Apply.validTypes.
  change (10 * 1024 * 1024) with 10485760.
  case_bool_decide as Hty; simpl.
  - destruct (N.ltb_spec 10485760 (Apply.size file)) as [Hsz|Hsz]; run_prims.
    + split; [done|]. split; [intros [_ ?]; lia|].
      split; [by destruct t|]. intros Hpng. rewrite Hpng in Hty. by apply (bool_decide_pack _) in Hty.
    + split; [done|]. split; [done|]. split; [intros []; by split|].
      intros Hpng. rewrite Hpng in Hty. by apply (bool_decide_pack _) in Hty.
  - run_prims. split; [done|]. split; [by intros [? _]|].
    split; [by destruct t|]. by intros _ ->.
Qed.

Lemma file_selection_checked_witness :
  let png := Apply.mkFile "passport.png" "image/png" 4096 in
  (exec (Apply.handleFileChange (Some png) Apply.passport)
        (Example.form_filled, Example.world0 [])).1
  = Apply.setError "Please upload a PDF or ZIP file for passport" Example.form_filled.
Proof.
  intros png.
  apply (file_selection_checked Example.form_filled (Example.world0 []) png Apply.passport);
    reflexivity.
Defined.

End file_selection.

(** ** Submitting the form *)

Section submission.
Import Remote Net.

Lemma uploadFile_run uid f path (st : Apply.State) w :
  Apply.uploadFile uid f path (st, w) =
  let fn := Apply.fileName uid f path (clock w) in
  let w1 := pop_reply (log_call (CallUpload fn) w) in
  match next_reply w with
  | Answer => (Normal (getPublicUrl (supabaseUrl w) fn),
               (st, with_store (put_object fn (store w)) w1))
  | ErrorReply e | Reject e => (Abrupt e, (st, w1))
  end.
Proof.
  unfold Apply.uploadFile. run_prims. by destruct (next_reply w).
Qed.

Lemma handleSubmit_document_missing uid st w :
  document_missing st →
  Apply.handleSubmit uid (st, w)
  = (Normal (), (Apply.setError "Please upload all required documents" st, w)).
Proof.
  unfold document_missing, Apply.handleSubmit. run_prims. destruct w.
  intros [H|[H|H]]; rewrite H; [done| |];
    by repeat (case_match; try done).
Qed.

Lemma required_filled_false st :
  field_empty st → Apply.required_filled (Apply.formData st) = false.
Proof.
  unfold field_empty, Apply.required_filled.
  intros [H|[H|[H|H]]]; rewrite H; simpl;
    rewrite ?andb_false_r; reflexivity.
Qed.

(** C1, the statement as written fails: with the three documents selected
    and no country chosen, [handleSubmit] uploads, inserts a row whose
    country is empty and hands over to the messaging link. *)
Lemma handleSubmit_inserts_with_empty_field :
  let σ' := exec (Apply.handleSubmit "u1") (Example.form_no_country, Example.world0 []) in
  field_empty Example.form_no_country
  ∧ applications (store (Example.world0 [])) = []
  ∧ (Application.desired_country <$> applications (store σ'.2)) = [""]
  ∧ Apply.error σ'.1 = ""
  ∧ Apply.location σ'.1 = Some Apply.whatsappUrl.
Proof.
  split; [by left|]. vm_compute. by repeat split.
Qed.

(** C1, as the code has it. When a document is missing, [handleSubmit]
    reports "Please upload all required documents", issues no request and
    inserts nothing. The descriptive fields are not examined by
    [handleSubmit]: the form marks them required, so with an empty field the
    handler is not called and page and world stay as they were. In both
    cases a submission through the form leaves the world untouched. *)
Theorem incomplete_submission_inserts_nothing uid st w :
  (document_missing st →
     exec (Apply.handleSubmit uid) (st, w)
     = (Apply.setError "Please upload all required documents" st, w))
  ∧ (field_empty st → exec (Apply.submit_form uid) (st, w) = (st, w))
  ∧ (document_missing st ∨ field_empty st →
     (exec (Apply.submit_form uid) (st, w)).2 = w).
Proof.
  assert (∀ H : document_missing st, exec (Apply.handleSubmit uid) (st, w)
     = (Apply.setError "Please upload all required documents" st, w)) as Hdoc.
  { intros H. unfold exec. by rewrite handleSubmit_document_missing. }
  assert (∀ H : field_empty st, exec (Apply.submit_form uid) (st, w) = (st, w)) as Hfld.
  { intros H. unfold exec, Apply.submit_form. run_prims.
    rewrite (required_filled_false st H). by destruct (Apply.loading st). }
  split; [done|]. split; [done|].
  intros [H|H]; [|by rewrite Hfld].
  unfold Apply.submit_form. run_prims.
  destruct (Apply.loading st); [done|].
  destruct (Apply.required_filled _); [|done].
  by rewrite handleSubmit_document_missing.
Qed.

Lemma incomplete_submission_inserts_nothing_witness :
  exec (Apply.submit_form "u1") (Example.form_no_country, Example.world0 [])
  = (Example.form_no_country, Example.world0 []).
Proof.
  apply (incomplete_submission_inserts_nothing "u1" Example.form_no_country
           (Example.world0 [])).
  left. reflexivity.
Defined.

(** Runs the next request of [handleSubmit] in [H], by cases on its reply. *)
Ltac stage H E :=
  rewrite ?uploadFile_run in H; unfold mutate in H; run_prims;
  unfold next_reply in H at 1; simpl in H;
  match type of H with
  | context [default Answer (head ?l)] =>
      destruct (default Answer (head l)) eqn:E; simpl in H
  end.

(** C3. With the three documents selected, [handleSubmit] issues its
    requests in the order passport, transcripts, motivation letter, insert,
    and stops at the first that fails. When an upload fails (an error reply
    or a rejected promise) the handler stops there: the requests issued are
    the uploads up to the failed one, the applications are as before, and
    the page shows the error, is no longer loading and has not been handed
    over. The applications change only when the three uploads were served;
    when the insert is served too, one Pending row of the principal is
    added. *)
Theorem failed_upload_aborts_submission uid st w p t m :
  Apply.files st = Apply.mkFiles (Some p) (Some t) (Some m) →
  let σ' := exec (Apply.handleSubmit uid) (st, w) in
  let uploads :=
    [CallUpload (Apply.fileName uid p "passport" (clock w));
     CallUpload (Apply.fileName uid t "transcripts" (clock w));
     CallUpload (Apply.fileName uid m "motivation_letter" (clock w))] in
  (∃ issued, calls σ'.2 = calls w ++ issued
     ∧ (issued `prefix_of` uploads ∨ ∃ row, issued = uploads ++ [CallInsert row]))
  ∧ (∀ i e, (i < 3)%nat →
       (∀ j, (j < i)%nat → coming_reply w j = Answer) →
       failure (coming_reply w i) = Some e →
       calls σ'.2 = calls w ++ take (S i) uploads
       ∧ applications (store σ'.2) = applications (store w)
       ∧ Apply.error σ'.1 = Apply.describe e
       ∧ Apply.loading σ'.1 = false
       ∧ Apply.uploading σ'.1 = None
       ∧ Apply.location σ'.1 = Apply.location st)
  ∧ (applications (store σ'.2) ≠ applications (store w) →
       ∀ j, (j < 3)%nat → coming_reply w j = Answer)
  ∧ ((∀ j, (j < 4)%nat → coming_reply w j = Answer) →
       ∃ row, applications (store σ'.2) = applications (store w) ++ [row]
              ∧ Application.status row = "Pending"
              ∧ Application.student_id row = uid
              ∧ Apply.location σ'.1 = Some Apply.whatsappUrl).
Proof.
  intros Hf. cbv zeta.
  remember (exec (Apply.handleSubmit uid) (st, w)) as σ' eqn:Hσ.
  unfold Apply.handleSubmit, exec in Hσ.
  unfold mbind, M_bind, bind, try_catch in Hσ. simpl in Hσ.
  rewrite Hf in Hσ. simpl in Hσ. unfold coming_reply.
  stage Hσ E0; [stage Hσ E1; [stage Hσ E2; [stage Hσ E3|..]|..]|..].
  all: subst σ'; simpl; rewrite <- ?(assoc_L (++)); simpl.
  all: split; [eexists; split; [reflexivity|]|split; [|split]].
  all: try (right; eexists; reflexivity).
  all: try (left; eexists; reflexivity).
  all: try (intros i e' Hi Hprev Hfail; destruct i as [|[|[|i]]]; try lia;
       try (pose proof (Hprev 0%nat ltac:(lia)) as H0; simpl in H0; congruence);
       try (pose proof (Hprev 1%nat ltac:(lia)) as H1; simpl in H1; congruence);
       simpl in Hfail; rewrite ?E0, ?E1, ?E2 in Hfail; simpl in Hfail;
       try discriminate; injection Hfail as <-; done).
  all: try (intros Hne; by destruct Hne).
  all: try (intros _ j Hj; destruct j as [|[|[|j]]]; try lia; simpl; done).
  all: try (intros Hall;
       try (pose proof (Hall 0%nat ltac:(lia)) as H0; simpl in H0; congruence);
       try (pose proof (Hall 1%nat ltac:(lia)) as H1; simpl in H1; congruence);
       try (pose proof (Hall 2%nat ltac:(lia)) as H2; simpl in H2; congruence);
       try (pose proof (Hall 3%nat ltac:(lia)) as H3; simpl in H3; congruence)).
  eexists. by repeat split.
Qed.

Lemma failed_upload_aborts_submission_witness :
  let σ' := exec (Apply.handleSubmit "u1")
                 (Example.form_filled, Example.world0 [Answer; ErrorReply Example.boom]) in
  calls σ'.2
  = [CallUpload "u1/passport_1700.pdf"; CallUpload "u1/transcripts_1700.pdf"]
  ∧ applications (store σ'.2) = []
  ∧ Apply.error σ'.1 = "network down"
  ∧ Apply.loading σ'.1 = false
  ∧ Apply.uploading σ'.1 = None
  ∧ Apply.location σ'.1 = None.
Proof.
  destruct (failed_upload_aborts_submission "u1" Example.form_filled
              (Example.world0 [Answer; ErrorReply Example.boom])
              (Example.pdf "id.pdf") (Example.pdf "grades.pdf")
              (Example.pdf "letter.pdf") eq_refl) as (_ & Habort & _).
  apply (Habort 1%nat Example.boom).
  - lia.
  - intros j Hj. assert (j = 0%nat) as -> by lia. reflexivity.
  - reflexivity.
Defined.

End submission.

(** ** Resolving the role *)

Section role.
Import Remote Net.

Lemma checkAdminStatus_run uid st w :
  AuthContext.checkAdminStatus uid (st, w)
  = (Normal (),
     (AuthContext.setLoading false
        (AuthContext.setIsAdmin
           (match next_reply w with
            | Answer => bool_decide (uid ∈ admins (store w))
            | _ => false
            end) st),
      pop_reply (log_call (CallSelectAdmin uid) w))).
Proof.
  unfold AuthContext.checkAdminStatus. run_prims.
  destruct (next_reply w); simpl; [|done|done].
  unfold select_admin. by case_bool_decide.
Qed.

(** C8. When the lookup in the admin table fails, by an error reply or by a
    rejected promise, [checkAdminStatus] completes normally and resolves
    the role to not-admin (and the loading flag is cleared). *)
Theorem failed_lookup_resolves_to_not_admin uid st w e :
  failure (coming_reply w 0) = Some e →
  outcome (AuthContext.checkAdminStatus uid) (st, w) = Normal ()
  ∧ AuthContext.isAdmin (exec (AuthContext.checkAdminStatus uid) (st, w)).1 = false
  ∧ AuthContext.loading (exec (AuthContext.checkAdminStatus uid) (st, w)).1 = false
  ∧ store (exec (AuthContext.checkAdminStatus uid) (st, w)).2 = store w.
Proof.
  unfold outcome, exec. rewrite checkAdminStatus_run. simpl.
  change (coming_reply w 0) with (next_reply w).
  by destruct (next_reply w).
Qed.

Lemma failed_lookup_resolves_to_not_admin_witness :
  AuthContext.isAdmin
    (exec (AuthContext.checkAdminStatus "root")
          (AuthContext.mkState (Some (AuthContext.mkUser "root" "r@x.com")) true true,
           Example.world0 [Reject Example.boom])).1 = false.
Proof.
  apply (failed_lookup_resolves_to_not_admin "root" _ _ Example.boom).
  reflexivity.
Defined.


End role.

(** ** The administrator's filter *)

Section filtering.




Lemma filter_sublist {A} (f : A → bool) (l : list A) :
  List.filter f l `sublist_of` l.
Proof.
  induction l as [|x l IH]; simpl; [constructor|].
  destruct (f x); by constructor.
Qed.

Lemma sublist_StronglySorted {A} (R : relation A) (l1 l2 : list A) :
  l1 `sublist_of` l2 → StronglySorted R l2 → StronglySorted R l1.
Proof.
  induction 1 as [|x l1 l2 Hsub IH|x l1 l2 Hsub IH]; intros Hs; [done| |].
  - apply StronglySorted_inv in Hs as [Hs Hx]. constructor; [auto|].
    apply Forall_forall. intros y Hy. apply (proj1 (Forall_forall _ _) Hx).
    by eapply sublist_subseteq.
  - apply StronglySorted_inv in Hs as [Hs _]. auto.
Qed.

Global Instance newest_first_trans : Transitive newest_first.
Proof. intros a b c. unfold newest_first. apply transitivity. Qed.





(** The two filters of the specification's examples, on [Example.listing]. *)
Example filter_Harvard_all :
  (Application.id ∘ app <$> AdminDashboard.filteredApplications Example.listing "Harvard" "all")
  = ["2"; "1"].
Proof. reflexivity. Qed.

Example filter_empty_Accepted :
  (Application.id ∘ app <$> AdminDashboard.filteredApplications Example.listing "" "Accepted")
  = ["2"; "1"].
Proof. reflexivity. Qed.

(** C10. The filtered view is a subsequence of the collection: it keeps the
    relative order of the applications. Hence it is ordered newest first
    whenever the collection is. *)
Theorem filter_keeps_order
    (applications : list ApplicationWithStudent) (searchTerm statusFilter : string) :
  AdminDashboard.filteredApplications applications searchTerm statusFilter
    `sublist_of` applications
  ∧ (Sorted newest_first applications →
     Sorted newest_first
       (AdminDashboard.filteredApplications applications searchTerm statusFilter)).
Proof.
  unfold AdminDashboard.filteredApplications. split; [apply filter_sublist|].
  intros Hs. apply StronglySorted_Sorted.
  eapply sublist_StronglySorted; [apply filter_sublist|].
  apply sorting.Sorted_StronglySorted; [apply _ | done].
Qed.

Lemma filter_keeps_order_witness :
  Sorted newest_first
    (AdminDashboard.filteredApplications Example.listing "Harvard" "all").
Proof.
  apply (filter_keeps_order Example.listing "Harvard" "all").
  unfold Example.listing. repeat constructor; unfold newest_first, Remote.newer_first; simpl; lia.
Defined.

End filtering.

(** ** The applicant's listing *)

Section own_listing.
Import Remote Net.

Lemma loadData_listed uid st w :
  (∀ e, coming_reply w 0 ≠ Reject e) →
  coming_reply w 1 = Answer →
  Dashboard.applications (exec (Dashboard.loadData uid) (st, w)).1
  = select_own uid (store w).
Proof.
  unfold coming_reply. simpl. intros H0 H1.
  unfold Dashboard.loadData. run_prims. unfold next_reply. simpl.
  destruct (default Answer (head (script w))) as [| |e]; simpl;
    [| |by destruct (H0 e)].
  - destruct (select_student_name uid (store w)); simpl; by rewrite H1.
  - by rewrite H1.
Qed.

Lemma loadData_listed_cases uid st w :
  Dashboard.applications (exec (Dashboard.loadData uid) (st, w)).1
  = select_own uid (store w)
  ∨ Dashboard.applications (exec (Dashboard.loadData uid) (st, w)).1
    = Dashboard.applications st.
Proof.
  unfold Dashboard.loadData. run_prims. unfold next_reply. simpl.
  destruct (default Answer (head (script w))); simpl; [| |by right].
  - destruct (select_student_name uid (store w)); simpl;
      destruct (default Answer (head (tail (script w)))); simpl; auto.
  - destruct (default Answer (head (tail (script w)))); simpl; auto.
Qed.

Lemma select_own_perm uid s :
  select_own uid s ≡ₚ filter (λ a, Application.student_id a = uid) (applications s).
Proof. unfold select_own, order_desc. apply merge_sort_Permutation. Qed.

Lemma elem_of_select_own uid s a :
  a ∈ select_own uid s ↔ a ∈ applications s ∧ Application.student_id a = uid.
Proof. rewrite select_own_perm, list_elem_of_filter. tauto. Qed.

(** C5. When the listing is obtained, the page of student [uid] holds
    exactly the applications of the store owned by [uid] (the same rows with
    the same multiplicities), ordered newest first; none of them is owned by
    another student. On a freshly mounted page that last fact holds whatever
    the remote side replies. *)
Theorem own_listing_exact_newest_first uid :
  (∀ st w,
     (∀ e, coming_reply w 0 ≠ Reject e) →
     coming_reply w 1 = Answer →
     let listed := Dashboard.applications (exec (Dashboard.loadData uid) (st, w)).1 in
     listed ≡ₚ filter (λ a, Application.student_id a = uid) (applications (store w))
     ∧ (∀ a, a ∈ listed ↔ a ∈ applications (store w) ∧ Application.student_id a = uid)
     ∧ Sorted newer_first listed
     ∧ (∀ other a, other ≠ uid → a ∈ listed → Application.student_id a ≠ other))
  ∧ (∀ w a,
       a ∈ Dashboard.applications (exec (Dashboard.loadData uid) (Dashboard.initial, w)).1 →
       Application.student_id a = uid).
Proof.
  split.
  - intros st w H0 H1. cbv zeta. rewrite (loadData_listed uid st w H0 H1).
    split; [apply select_own_perm|]. split; [apply elem_of_select_own|].
    split; [apply Sorted_merge_sort, _|].
    intros other a Hne Ha. apply elem_of_select_own in Ha as [_ ->]. done.
  - intros w a.
    destruct (loadData_listed_cases uid Dashboard.initial w) as [-> | ->].
    + by intros [_ ?]%elem_of_select_own.
    + simpl. by intros ?%elem_of_nil.
Qed.

Lemma own_listing_exact_newest_first_witness :
  let listed :=
    Dashboard.applications
      (exec (Dashboard.loadData "u1") (Dashboard.initial, Example.world2 [])).1 in
  (Application.id <$> listed) = ["4"; "2"]
  ∧ Sorted newer_first listed.
Proof.
  split; [reflexivity|].
  apply (proj1 (own_listing_exact_newest_first "u1") Dashboard.initial (Example.world2 [])).
  - intros e. discriminate.
  - reflexivity.
Defined.

End own_listing.

(** ** Updating the status *)

Section status_update.
Import Remote Net.

Lemma loadApplications_store st w :
  store (exec AdminDashboard.loadApplications (st, w)).2 = store w.
Proof. by apply (loadApplications_stable (λ s, s = store w) (st, w)). Qed.

Lemma handleStatusUpdate_store appId newStatus st w :
  store (exec (AdminDashboard.handleStatusUpdate appId newStatus) (st, w)).2
  = match coming_reply w 0 with
    | Answer => update_status (clock w) appId newStatus (store w)
    | _ => store w
    end.
Proof.
  change (coming_reply w 0) with (next_reply w).
  unfold AdminDashboard.handleStatusUpdate. unfold mutate.
  unfold exec, mbind, M_bind, bind, try_finally, try_catch, get_state, get,
    set_state, modify, on_world, console_error, ret, throw. simpl.
  destruct (next_reply w); simpl; [|done|done].
  match goal with
  | |- context [AdminDashboard.loadApplications (?a, ?b)] =>
      pose proof (loadApplications_store a b) as Hl
  end.
  unfold exec in Hl.
  match goal with
  | |- context [AdminDashboard.loadApplications (?a, ?b)] =>
      destruct (AdminDashboard.loadApplications (a, b)) as [c [st' w']]
  end.
  unfold on_world, modify. simpl in *. destruct c as [[]|e]; simpl; [|done].
  destruct (AdminDashboard.selectedApp st) as [sel|]; simpl; [|done].
  by case_bool_decide.
Qed.

(** C9. When the update request is served, the store holds the same rows in
    the same order: every row whose id is [appId] has the new status and the
    instant of the update as [updated_at], its other fields as before; every
    other row is as before; the other tables are as before. *)
Theorem successful_update_frame appId newStatus st w :
  coming_reply w 0 = Answer →
  let s' := store (exec (AdminDashboard.handleStatusUpdate appId newStatus) (st, w)).2 in
  Forall2 (status_updated (clock w) appId newStatus)
    (applications (store w)) (applications s')
  ∧ students s' = students (store w)
  ∧ admins s' = admins (store w)
  ∧ objects s' = objects (store w).
Proof.
  intros Hserved. cbv zeta. rewrite handleStatusUpdate_store, Hserved. simpl.
  split; [|done]. apply Forall2_fmap_r, Forall_Forall2_diag, Forall_forall.
  intros a _. unfold compose, status_updated, update_row. by case_bool_decide.
Qed.

Lemma successful_update_frame_witness :
  let s' := store (exec (AdminDashboard.handleStatusUpdate "2" "Reviewed")
                        (AdminDashboard.initial, Example.world2 [])).2 in
  Forall2 (status_updated 1700 "2" "Reviewed")
    (applications Example.store2) (applications s')
  ∧ students s' = students Example.store2
  ∧ admins s' = admins Example.store2
  ∧ objects s' = objects Example.store2.
Proof.
  exact (successful_update_frame "2" "Reviewed" AdminDashboard.initial
           (Example.world2 []) eq_refl).
Defined.

(** The store after the update of the witness. *)
Example update_of_row_2 :
  applications
    (store (exec (AdminDashboard.handleStatusUpdate "2" "Reviewed")
                 (AdminDashboard.initial, Example.world2 [])).2)
  = [Example.row_of "1" "u2" "United States" "HARVARD University" "Accepted" 10;
     Application.mk "2" "u1" "France" "Sorbonne" "Diploma" "Law" "p" "t" "m"
       "Reviewed" None 20 1700;
     Example.row_of "3" "u2" "Canada" "UBC" "Pending" 30;
     Example.row_of "4" "u1" "Japan" "Todai" "Pending" 40].
Proof. reflexivity. Qed.

End status_update.

(** ** The handlers of the administrator's page, run *)

Section admin_runs.
Import Remote Net.

Lemma loadApplications_run st w :
  AdminDashboard.loadApplications (st, w)
  = (Normal (),
     (AdminDashboard.setLoading false
        (match coming_reply w 0 with
         | Answer => AdminDashboard.setApplications (select_all (store w)) st
         | _ => st
         end),
      match failure (coming_reply w 0) with
      | Some e => log_error e (pop_reply (log_call CallSelectAll w))
      | None => pop_reply (log_call CallSelectAll w)
      end)).
Proof.
  change (coming_reply w 0) with (next_reply w).
  unfold AdminDashboard.loadApplications. run_prims.
  by destruct (next_reply w).
Qed.

Lemma handleStatusUpdate_failed appId newStatus st w e :
  failure (coming_reply w 0) = Some e →
  exec (AdminDashboard.handleStatusUpdate appId newStatus) (st, w)
  = (AdminDashboard.setUpdatingStatus false (AdminDashboard.setUpdatingStatus true st),
     log_error e (pop_reply (log_call (CallUpdateStatus appId newStatus) w))).
Proof.
  change (coming_reply w 0) with (next_reply w).
  unfold AdminDashboard.handleStatusUpdate. unfold mutate. run_prims.
  destruct (next_reply w); simpl; [done|by intros [= ->]..].
Qed.


End admin_runs.

(** ** The gate of the administrator's page and the policy of the store *)

Section admin_gate.
Import Remote Net.









(** The same principal on a page that was given the administrator's role:
    the listing of the mount effect is refused and nothing is listed. *)
Example stale_role_lists_nothing :
  let bob := AuthContext.mkUser "u2" "b@x.com" in
  let denied := Js.mkThrown false "permission denied for table applications" in
  let σ' := exec (AdminDashboard.handle (Some bob) true AdminDashboard.RunEffect)
                 (AdminDashboard.initial, Example.world2 [ErrorReply denied]) in
  AdminDashboard.applications σ'.1 = []
  ∧ store σ'.2 = Example.store2
  ∧ calls σ'.2 = [CallSelectAll]
  ∧ console σ'.2 = [denied].
Proof. by repeat split. Qed.

End admin_gate.

(** * Further properties of the code *)

(** ** Object paths *)

Section object_paths.

Local Arguments String.append !_ _ / : simpl nomatch.

Lemma includes_dot_cons c s :
  Js.includes (String c s) "." = bool_decide (c = "."%char) || Js.includes s ".".
Proof.
  cbn [Js.includes]. f_equal. simpl. destruct s; by rewrite andb_true_r.
Qed.

Lemma includes_dot_app a b :
  Js.includes (a +:+ b) "." = Js.includes a "." || Js.includes b ".".
Proof.
  induction a as [|c a IH]; [done|].
  change (String c a +:+ b) with (String c (a +:+ b)).
  by rewrite !includes_dot_cons, IH, orb_assoc.
Qed.

Lemma string_app_assoc (a b c : string) : (a +:+ b) +:+ c = a +:+ (b +:+ c).
Proof. induction a as [|x a IH]; simpl; [done | by rewrite IH]. Qed.

Lemma string_app_nil_r (a : string) : a +:+ "" = a.
Proof. induction a as [|x a IH]; simpl; [done | by rewrite IH]. Qed.

Lemma rev_app_spec a b : String.rev_app a b = String.rev a +:+ b.
Proof.
  unfold String.rev. revert b. induction a as [|c a IH]; intros b; simpl; [done|].
  rewrite (IH (String c b)), (IH (String c "")). by rewrite string_app_assoc.
Qed.

Lemma rev_cons c a : String.rev (String c a) = String.rev a +:+ String c "".
Proof. unfold String.rev at 1. simpl. apply rev_app_spec. Qed.

Lemma split_dot_pop_go_no_dot s acc :
  Js.includes s "." = false →
  Js.split_dot_pop_go acc s = String.rev acc +:+ s.
Proof.
  revert acc. induction s as [|c s IH]; intros acc Hs; simpl.
  - by rewrite string_app_nil_r.
  - rewrite includes_dot_cons in Hs. apply orb_false_elim in Hs as [Hc Hs].
    rewrite Hc, (IH _ Hs), rev_cons. by rewrite string_app_assoc.
Qed.

Lemma split_dot_pop_go_last s acc pre ext :
  s = pre +:+ "." +:+ ext →
  Js.includes ext "." = false →
  Js.split_dot_pop_go acc s = ext.
Proof.
  revert acc pre. induction s as [|c s IH]; intros acc pre Hs Hext.
  - destruct pre; discriminate.
  - simpl. destruct pre as [|c' pre]; simpl in Hs; injection Hs as -> ->.
    + rewrite bool_decide_eq_true_2 by done.
      by rewrite split_dot_pop_go_no_dot.
    + case_bool_decide; by apply (IH _ pre).
Qed.

Lemma split_dot_pop_go_result_no_dot s acc :
  Js.includes (String.rev acc) "." = false →
  Js.includes (Js.split_dot_pop_go acc s) "." = false.
Proof.
  revert acc. induction s as [|c s IH]; intros acc Hacc; simpl; [done|].
  case_bool_decide as Hc; apply IH; [done|].
  rewrite rev_cons, includes_dot_app, Hacc, includes_dot_cons. simpl.
  by rewrite bool_decide_eq_false_2.
Qed.

(** X1. The extension [uploadFile] takes, [name.split('.').pop()], never
    contains a dot; it is the text after the last dot of the name, and the
    whole name when the name has no dot. *)
Theorem split_dot_pop_last_segment name :
  Js.includes (Js.split_dot_pop name) "." = false
  ∧ (Js.includes name "." = false → Js.split_dot_pop name = name)
  ∧ (∀ pre ext, name = pre +:+ "." +:+ ext → Js.includes ext "." = false →
       Js.split_dot_pop name = ext).
Proof.
  unfold Js.split_dot_pop. split; [by apply split_dot_pop_go_result_no_dot|].
  split.
  - intros H. by rewrite split_dot_pop_go_no_dot.
  - intros pre ext. apply split_dot_pop_go_last.
Qed.

Lemma split_dot_pop_last_segment_witness :
  Js.split_dot_pop "grades.2024.tar.zip" = "zip" ∧ Js.split_dot_pop "letter" = "letter".
Proof.
  split.
  - apply (split_dot_pop_last_segment "grades.2024.tar.zip") with (pre := "grades.2024.tar");
      reflexivity.
  - apply (split_dot_pop_last_segment "letter"). reflexivity.
Defined.

Lemma string_length_app (a b : string) :
  String.length (a +:+ b) = (String.length a + String.length b)%nat.
Proof. induction a as [|x a IH]; simpl; [done | by rewrite IH]. Qed.

Lemma string_app_inj_r (a b c : string) : a +:+ c = b +:+ c → a = b.
Proof.
  revert b. induction a as [|x a IH]; intros [|y b] H; simpl in H.
  - done.
  - apply (f_equal String.length) in H. simpl in H.
    rewrite string_length_app in H. lia.
  - apply (f_equal String.length) in H. simpl in H.
    rewrite string_length_app in H. lia.
  - injection H as -> H. by rewrite (IH _ H).
Qed.

(** X2. Object paths do not collide: for one principal and one category, two
    calls of [uploadFile] build the same path only when [Date.now()] gave
    the same value (and the files have the same extension); and the paths of
    the three categories of a submission are pairwise different, whatever
    the files and the instants. *)
Theorem fileName_collision_free uid f1 f2 path n1 n2 :
  (Apply.fileName uid f1 path n1 = Apply.fileName uid f2 path n2 →
     n1 = n2 ∧ Js.split_dot_pop (Apply.name f1) = Js.split_dot_pop (Apply.name f2))
  ∧ Apply.fileName uid f1 "passport" n1 ≠ Apply.fileName uid f2 "transcripts" n2
  ∧ Apply.fileName uid f1 "passport" n1 ≠ Apply.fileName uid f2 "motivation_letter" n2
  ∧ Apply.fileName uid f1 "transcripts" n1 ≠ Apply.fileName uid f2 "motivation_letter" n2.
Proof.
  unfold Apply.fileName. cbv zeta. split; [|repeat split].
  - intros H. do 4 apply (inj (String.append _)) in H.
    assert (Js.split_dot_pop (Apply.name f1) = Js.split_dot_pop (Apply.name f2)) as He.
    { pose proof (split_dot_pop_last_segment (Apply.name f1)) as [He1 _].
      pose proof (split_dot_pop_last_segment (Apply.name f2)) as [He2 _].
      pose proof (split_dot_pop_last_segment
                    (pretty n1 +:+ "." +:+ Js.split_dot_pop (Apply.name f1)))
        as (_ & _ & Hl).
      rewrite <- (Hl _ _ eq_refl He1). rewrite H.
      pose proof (split_dot_pop_last_segment
                    (pretty n2 +:+ "." +:+ Js.split_dot_pop (Apply.name f2)))
        as (_ & _ & Hl2).
      exact (Hl2 (pretty n2) _ eq_refl He2). }
    split; [|done]. rewrite He in H. apply string_app_inj_r in H.
    by apply (inj pretty).
  - intros H. apply (inj (String.append _)) in H. discriminate.
  - intros H. apply (inj (String.append _)) in H. discriminate.
  - intros H. apply (inj (String.append _)) in H. discriminate.
Qed.

Lemma fileName_collision_free_witness :
  (1700 : N) = 1700
  ∧ Js.split_dot_pop "id.pdf" = Js.split_dot_pop "scan.pdf".
Proof.
  apply (fileName_collision_free "u1" (Example.pdf "id.pdf") (Example.pdf "scan.pdf")
           "passport" 1700 1700).
  reflexivity.
Defined.

End object_paths.

(** ** The [Apply] page over a whole session *)

(** Runs the next request of [handleSubmit] in [H], by cases on its reply. *)
Ltac run_stage H E :=
  rewrite ?uploadFile_run in H; unfold Net.mutate in H; run_prims;
  unfold Net.next_reply in H at 1; simpl in H;
  match type of H with
  | context [default Remote.Answer (head ?l)] =>
      destruct (default Remote.Answer (head l)) eqn:E; simpl in H
  end.

Section apply_page.
Import Remote Net.

(** [handleSubmit] writes the error, loading, uploading and location slots
    of the page only. *)
Lemma handleSubmit_keeps_form uid st w :
  Apply.files (exec (Apply.handleSubmit uid) (st, w)).1 = Apply.files st
  ∧ Apply.formData (exec (Apply.handleSubmit uid) (st, w)).1 = Apply.formData st.
Proof.
  remember (exec (Apply.handleSubmit uid) (st, w)) as σ' eqn:Hσ.
  unfold Apply.handleSubmit, exec in Hσ.
  unfold mbind, M_bind, bind, try_catch in Hσ. simpl in Hσ.
  destruct (Apply.f_passport (Apply.files st)) as [p|]; [|by subst].
  destruct (Apply.f_transcripts (Apply.files st)) as [t|]; [|by subst].
  destruct (Apply.f_motivationLetter (Apply.files st)) as [m|]; [|by subst].
  simpl in Hσ.
  run_stage Hσ E0; [run_stage Hσ E1; [run_stage Hσ E2; [run_stage Hσ E3|..]|..]|..].
  all: by subst σ'.
Qed.

Lemma handleFileChange_cases file t st w :
  exec (Apply.handleFileChange (Some file) t) (st, w)
  = (Apply.setError "" (Apply.setFiles (Apply.with_file t file (Apply.files st)) st), w)
    ∧ ApplyPage.acceptable file
  ∨ Apply.files (exec (Apply.handleFileChange (Some file) t) (st, w)).1 = Apply.files st
    ∧ Apply.formData (exec (Apply.handleFileChange (Some file) t) (st, w)).1 = Apply.formData st
    ∧ Apply.loading (exec (Apply.handleFileChange (Some file) t) (st, w)).1 = Apply.loading st
    ∧ (exec (Apply.handleFileChange (Some file) t) (st, w)).2 = w.
Proof.
  unfold Apply.handleFileChange, Js.array_includes, ApplyPage.acceptable.
  case_bool_decide as Hty; simpl; [|by right].
  destruct (N.ltb_spec (10 * 1024 * 1024) (Apply.size file)) as [Hsz|Hsz];
    run_prims; [by right|]. left. by repeat split.
Qed.

Lemma get_file_with_file t t' file fs f :
  ApplyPage.get_file t' (Apply.with_file t file fs) = Some f →
  f = file ∨ ApplyPage.get_file t' fs = Some f.
Proof. destruct t, t'; simpl; intros H; (by right) || (left; congruence). Qed.

(** X3. Every document the page holds has passed the checks of
    [handleFileChange]: whatever the user does on the page, starting from
    the empty form, a stored file has one of the PDF and ZIP media types
    and a size of at most 10 MiB. So [handleSubmit] uploads checked files
    only. *)
Theorem stored_documents_are_checked uid evs w t f :
  ApplyPage.get_file t (Apply.files (ApplyPage.run uid evs (Apply.initial, w)).1) = Some f →
  Apply.type f ∈ ["application/pdf"; "application/zip"; "application/x-zip-compressed"]
  ∧ Apply.size f ≤ 10485760.
Proof.
  change (ApplyPage.get_file t
            (Apply.files (ApplyPage.run uid evs (Apply.initial, w)).1) = Some f →
          ApplyPage.acceptable f).
  assert (∀ σ : Apply.State * World,
            (∀ t f, ApplyPage.get_file t (Apply.files σ.1) = Some f → ApplyPage.acceptable f) →
            ∀ t f, ApplyPage.get_file t (Apply.files (ApplyPage.run uid evs σ).1) = Some f →
                   ApplyPage.acceptable f) as Hinv.
  { induction evs as [|ev evs IH]; intros σ Hσ; [done|]. simpl. apply IH.
    destruct σ as [st w0]. simpl in Hσ.
    destruct ev as [k v|[file|] t0|]; unfold ApplyPage.handle.
    - exact Hσ.
    - destruct (handleFileChange_cases file t0 st w0) as [[-> Hok] | (-> & _)];
        [|exact Hσ].
      simpl. intros t1 f1 [-> | H]%get_file_with_file; [done | by eapply Hσ].
    - exact Hσ.
    - unfold Apply.submit_form. run_prims.
      destruct (Apply.loading st); [exact Hσ|].
      destruct (Apply.required_filled _); [|exact Hσ].
      destruct (handleSubmit_keeps_form uid st w0) as [Hf _].
      unfold exec in Hf. simpl in Hσ. by rewrite Hf. }
  apply Hinv. intros t1 f1. by destruct t1.
Qed.

Lemma stored_documents_are_checked_witness :
  Apply.type (Example.pdf "id.pdf")
    ∈ ["application/pdf"; "application/zip"; "application/x-zip-compressed"]
  ∧ Apply.size (Example.pdf "id.pdf") ≤ 10485760.
Proof.
  apply (stored_documents_are_checked "u1"
           [ApplyPage.SelectFile (Some (Apply.mkFile "big.pdf" "application/pdf" 20000000))
              Apply.passport;
            ApplyPage.SelectFile (Some (Example.pdf "id.pdf")) Apply.passport;
            ApplyPage.SelectFile (Some (Apply.mkFile "x.png" "image/png" 10)) Apply.passport]
           (Example.world0 []) Apply.passport).
  reflexivity.
Defined.

(** X4. [handleChange] writes the named control and nothing else: the
    control reads back the value given, the other three controls, the
    documents, the error and the loading flag are as before, and no request
    is issued. *)
Theorem handleChange_writes_one_field k v st w :
  let σ' := exec (Apply.handleChange k v) (st, w) in
  ApplyPage.get_field k (Apply.formData σ'.1) = v
  ∧ (∀ k', k' ≠ k →
       ApplyPage.get_field k' (Apply.formData σ'.1)
       = ApplyPage.get_field k' (Apply.formData st))
  ∧ Apply.files σ'.1 = Apply.files st
  ∧ Apply.error σ'.1 = Apply.error st
  ∧ Apply.loading σ'.1 = Apply.loading st
  ∧ σ'.2 = w.
Proof.
  unfold Apply.handleChange. run_prims.
  split; [by destruct k|]. split; [|done].
  intros k' Hk. by destruct k, k'.
Qed.

Lemma handleChange_writes_one_field_witness :
  let σ' := exec (Apply.handleChange Apply.desiredCollege_ "MIT")
                 (Example.form_filled, Example.world0 []) in
  ApplyPage.get_field Apply.desiredCountry_ (Apply.formData σ'.1) = "Canada".
Proof.
  intros σ'.
  destruct (handleChange_writes_one_field Apply.desiredCollege_ "MIT"
              Example.form_filled (Example.world0 [])) as (_ & Hother & _).
  apply (Hother Apply.desiredCountry_). discriminate.
Defined.

Lemma handle_while_loading uid ev st w :
  Apply.loading st = true →
  Apply.loading (exec (ApplyPage.handle uid ev) (st, w)).1 = true
  ∧ (exec (ApplyPage.handle uid ev) (st, w)).2 = w.
Proof.
  intros Hl. destruct ev as [k v|[file|] t|]; unfold ApplyPage.handle.
  - done.
  - destruct (handleFileChange_cases file t st w) as [[-> _] | (_ & _ & -> & ->)]; done.
  - done.
  - unfold Apply.submit_form. run_prims. by rewrite Hl.
Qed.

Lemma run_while_loading uid evs st w :
  Apply.loading st = true →
  Apply.loading (ApplyPage.run uid evs (st, w)).1 = true
  ∧ (ApplyPage.run uid evs (st, w)).2 = w.
Proof.
  revert st. induction evs as [|ev evs IH]; intros st Hl; [done|]. simpl.
  destruct (handle_while_loading uid ev st w Hl) as [Hl' Hw].
  destruct (exec (ApplyPage.handle uid ev) (st, w)) as [st' w']. simpl in *.
  subst w'. by apply IH.
Qed.

(** X5. A submission is made once. When the form is complete and the four
    requests are served, activating the submit button adds one application;
    the page is left loading, so whatever the user then does on it (further
    clicks on the disabled button included) reaches the world no more. *)
Theorem served_submission_is_single uid st w p t m evs :
  Apply.files st = Apply.mkFiles (Some p) (Some t) (Some m) →
  Apply.loading st = false →
  Apply.required_filled (Apply.formData st) = true →
  (∀ j, (j < 4)%nat → coming_reply w j = Answer) →
  let σ1 := exec (Apply.submit_form uid) (st, w) in
  (∃ row, applications (store σ1.2) = applications (store w) ++ [row])
  ∧ (ApplyPage.run uid evs σ1).2 = σ1.2.
Proof.
  intros Hf Hl Hr Hall. cbv zeta.
  assert (exec (Apply.submit_form uid) (st, w) = exec (Apply.handleSubmit uid) (st, w)) as ->.
  { unfold Apply.submit_form. run_prims. by rewrite Hl, Hr. }
  remember (exec (Apply.handleSubmit uid) (st, w)) as σ' eqn:Hσ.
  unfold Apply.handleSubmit, exec in Hσ.
  unfold mbind, M_bind, bind, try_catch in Hσ. simpl in Hσ.
  rewrite Hf in Hσ. simpl in Hσ.
  pose proof (Hall 0%nat ltac:(lia)) as H0. pose proof (Hall 1%nat ltac:(lia)) as H1.
  pose proof (Hall 2%nat ltac:(lia)) as H2. pose proof (Hall 3%nat ltac:(lia)) as H3.
  unfold coming_reply in H0, H1, H2, H3. simpl in H0, H1, H2, H3.
  run_stage Hσ E0; [|congruence..].
  run_stage Hσ E1; [|congruence..].
  run_stage Hσ E2; [|congruence..].
  run_stage Hσ E3; [|congruence..].
  subst σ'. split; [by eexists|].
  by apply run_while_loading.
Qed.

Lemma served_submission_is_single_witness :
  let σ1 := exec (Apply.submit_form "u1") (Example.form_filled, Example.world0 []) in
  (∃ row, applications (store σ1.2) = applications (store (Example.world0 [])) ++ [row])
  ∧ (ApplyPage.run "u1" [ApplyPage.Submit; ApplyPage.Submit] σ1).2 = σ1.2.
Proof.
  apply (served_submission_is_single "u1" Example.form_filled (Example.world0 [])
           (Example.pdf "id.pdf") (Example.pdf "grades.pdf") (Example.pdf "letter.pdf")
           [ApplyPage.Submit; ApplyPage.Submit]); try reflexivity.
  intros j Hj. destruct j as [|[|[|[|j]]]]; [reflexivity..|lia].
Defined.

End apply_page.

(** ** A submission that fails part-way *)

Section failed_stage.
Import Remote Net.

(** X6. When one of the four requests of [handleSubmit] fails (an upload or
    the final insert, by an error reply or a rejected promise), no
    application is added, the objects uploaded before the failing request
    stay in the bucket (no request is issued after the failing one, so
    nothing is cleaned up), and the page can be used again: it shows the
    message of the error, or "Failed to submit application" when the error
    is not an instance of Error, and is no longer loading. *)
Theorem failed_stage_keeps_uploads uid st w p t m i e :
  Apply.files st = Apply.mkFiles (Some p) (Some t) (Some m) →
  (i < 4)%nat →
  (∀ j, (j < i)%nat → coming_reply w j = Answer) →
  failure (coming_reply w i) = Some e →
  let σ' := exec (Apply.handleSubmit uid) (st, w) in
  let paths :=
    [Apply.fileName uid p "passport" (clock w);
     Apply.fileName uid t "transcripts" (clock w);
     Apply.fileName uid m "motivation_letter" (clock w)] in
  let row :=
    Application.mkPayload uid
      (Apply.desiredCountry (Apply.formData st)) (Apply.desiredCollege (Apply.formData st))
      (Apply.educationLevel (Apply.formData st)) (Apply.fieldOfStudy (Apply.formData st))
      (getPublicUrl (supabaseUrl w) (Apply.fileName uid p "passport" (clock w)))
      (getPublicUrl (supabaseUrl w) (Apply.fileName uid t "transcripts" (clock w)))
      (getPublicUrl (supabaseUrl w) (Apply.fileName uid m "motivation_letter" (clock w)))
      "Pending" in
  objects (store σ'.2) = objects (store w) ++ take i paths
  ∧ applications (store σ'.2) = applications (store w)
  ∧ calls σ'.2
    = calls w ++ take (S i) ((CallUpload <$> paths) ++ [CallInsert row])
  ∧ Apply.error σ'.1
    = (if Js.instanceof_Error e then Js.message e else "Failed to submit application")
  ∧ Apply.loading σ'.1 = false
  ∧ Apply.uploading σ'.1 = None
  ∧ Apply.location σ'.1 = Apply.location st.
Proof.
  intros Hf Hi Hprev Hfail. cbv zeta.
  remember (exec (Apply.handleSubmit uid) (st, w)) as σ' eqn:Hσ.
  unfold Apply.handleSubmit, exec in Hσ.
  unfold mbind, M_bind, bind, try_catch in Hσ. simpl in Hσ.
  rewrite Hf in Hσ. simpl in Hσ. unfold coming_reply in Hprev, Hfail.
  run_stage Hσ E0; [run_stage Hσ E1; [run_stage Hσ E2; [run_stage Hσ E3|..]|..]|..].
  all: subst σ'; simpl; rewrite <- ?(assoc_L (++)); simpl.
  all: destruct i as [|[|[|[|i]]]]; try lia.
  all: try (pose proof (Hprev 0%nat ltac:(lia)) as H0; simpl in H0; congruence).
  all: try (pose proof (Hprev 1%nat ltac:(lia)) as H1; simpl in H1; congruence).
  all: try (pose proof (Hprev 2%nat ltac:(lia)) as H2; simpl in H2; congruence).
  all: simpl in Hfail; rewrite ?E0, ?E1, ?E2, ?E3 in Hfail; simpl in Hfail;
    try discriminate; injection Hfail as <-.
  all: rewrite ?app_nil_r; unfold Apply.describe; by repeat split.
Qed.

Lemma failed_stage_keeps_uploads_witness :
  let plain := Js.mkThrown false "duplicate key" in
  let σ' := exec (Apply.handleSubmit "u1")
                 (Example.form_filled,
                  Example.world0 [Answer; Answer; Answer; ErrorReply plain]) in
  objects (store σ'.2)
  = ["u1/passport_1700.pdf"; "u1/transcripts_1700.pdf"; "u1/motivation_letter_1700.pdf"]
  ∧ applications (store σ'.2) = []
  ∧ Apply.error σ'.1 = "Failed to submit application"
  ∧ Apply.loading σ'.1 = false.
Proof.
  intros plain σ'.
  destruct (failed_stage_keeps_uploads "u1" Example.form_filled
              (Example.world0 [Answer; Answer; Answer; ErrorReply plain])
              (Example.pdf "id.pdf") (Example.pdf "grades.pdf") (Example.pdf "letter.pdf")
              3%nat plain eq_refl) as (Ho & Ha & _ & He & Hl & _).
  - lia.
  - intros j Hj. destruct j as [|[|[|j]]]; [reflexivity..|lia].
  - reflexivity.
  - by repeat split.
Defined.

End failed_stage.

(** ** Status badges *)

Section badges.
Import Remote.

Lemma getStatusIcon_is_Some status :
  is_Some (Badge.getStatusIcon status) ↔ status ∈ Application.statuses.
Proof.
  unfold Badge.getStatusIcon, Application.statuses.
  rewrite !elem_of_cons, elem_of_nil.
  repeat case_bool_decide; split; intros Hx; try (by eexists); try tauto.
  all: by destruct Hx.
Qed.

(** X7. The badge of an application tells its status: [getStatusIcon] gives
    an icon, and [getStatusColor] a colour other than the grey fallback,
    exactly for the four statuses, and different statuses among the four get
    different icons and different colours. Hence every application of a
    reachable store is shown with an icon and a colour of its own status. *)
Theorem badges_tell_the_status :
  (∀ s, is_Some (Badge.getStatusIcon s) ↔ s ∈ ["Pending"; "Reviewed"; "Accepted"; "Rejected"])
  ∧ (∀ s, Badge.getStatusColor s ≠ "bg-gray-100 text-gray-800"
          ↔ s ∈ ["Pending"; "Reviewed"; "Accepted"; "Rejected"])
  ∧ (∀ s1 s2, s1 ∈ ["Pending"; "Reviewed"; "Accepted"; "Rejected"] →
       (Badge.getStatusIcon s1 = Badge.getStatusIcon s2
        ∨ Badge.getStatusColor s1 = Badge.getStatusColor s2) → s1 = s2)
  ∧ (∀ w a, System.reachable w → a ∈ applications (store w) →
       is_Some (Badge.getStatusIcon (Application.status a))
       ∧ Badge.getStatusColor (Application.status a) ≠ "bg-gray-100 text-gray-800").
Proof.
  assert (∀ s, Badge.getStatusColor s ≠ "bg-gray-100 text-gray-800"
               ↔ s ∈ Application.statuses) as Hcolor.
  { intros s. unfold Badge.getStatusColor, Application.statuses.
    rewrite !elem_of_cons, elem_of_nil.
    repeat case_bool_decide; split; intros Hx; try done; try tauto. }
  split; [apply getStatusIcon_is_Some|]. split; [exact Hcolor|]. split.
  - intros s1 s2 Hs1 H.
    unfold Badge.getStatusIcon, Badge.getStatusColor in H.
    rewrite !elem_of_cons, elem_of_nil in Hs1.
    destruct Hs1 as [-> | [-> | [-> | [-> | []]]]]; simpl in H;
      repeat case_bool_decide; destruct H as [Hx|Hx]; by try discriminate.
  - intros w a Hw Ha.
    pose proof (reachable_statuses_valid w Hw) as Hv.
    unfold statuses_valid in Hv.
    pose proof (proj1 (Forall_forall _ _) Hv a Ha) as Hs. simpl in Hs.
    split; [by apply getStatusIcon_is_Some | by apply Hcolor].
Qed.

Lemma badges_tell_the_status_witness :
  is_Some (Badge.getStatusIcon (Application.status Example.row1))
  ∧ Badge.getStatusColor (Application.status Example.row1) ≠ "bg-gray-100 text-gray-800".
Proof.
  destruct badges_tell_the_status as (_ & _ & _ & Hreach).
  apply (Hreach Example.world1 Example.row1).
  - exists (Example.world0 []). split; [reflexivity|].
    apply rtc_once.
    exact (System.step_submit "u1" Example.form_filled (Example.world0 [])).
  - apply list_elem_of_here.
Defined.

End badges.

(** ** Reading the applicant's listing again *)

Section own_listing_again.
Import Remote Net.

(** The world after [loadData] when the name lookup does not reject: two
    requests were issued, the store is as before. *)
Lemma loadData_world uid st w :
  (∀ e, coming_reply w 0 ≠ Reject e) →
  store (exec (Dashboard.loadData uid) (st, w)).2 = store w
  ∧ script (exec (Dashboard.loadData uid) (st, w)).2 = tail (tail (script w)).
Proof.
  unfold coming_reply. simpl. intros H0.
  unfold Dashboard.loadData. run_prims. unfold next_reply. simpl.
  destruct (default Answer (head (script w))) as [| |e]; simpl;
    [| |by destruct (H0 e)].
  - destruct (select_student_name uid (store w)); simpl;
      by destruct (default Answer (head (tail (script w)))).
  - by destruct (default Answer (head (tail (script w)))).
Qed.

(** X8. Reading is idempotent: [loadData] leaves the store as it is, and
    two served loads in a row put the same list on the page. *)
Theorem loadData_twice_same_listing uid st w :
  (∀ e, coming_reply w 0 ≠ Reject e) → coming_reply w 1 = Answer →
  (∀ e, coming_reply w 2 ≠ Reject e) → coming_reply w 3 = Answer →
  let σ1 := exec (Dashboard.loadData uid) (st, w) in
  let σ2 := exec (Dashboard.loadData uid) σ1 in
  Dashboard.applications σ2.1 = Dashboard.applications σ1.1
  ∧ store σ2.2 = store w.
Proof.
  intros H0 H1 H2 H3. cbv zeta.
  destruct (loadData_world uid st w H0) as [Hs Hsc].
  pose proof (loadData_listed uid st w H0 H1) as Hl1.
  destruct (exec (Dashboard.loadData uid) (st, w)) as [st1 w1]. simpl in *.
  assert (∀ i, coming_reply w1 i = coming_reply w (2 + i)) as Hshift.
  { intros i. unfold coming_reply. rewrite Hsc. simpl. f_equal. f_equal.
    induction i as [|i IH]; simpl; [done | by rewrite IH]. }
  assert (∀ e, coming_reply w1 0 ≠ Reject e) as H0' by (intros e; rewrite Hshift; apply H2).
  assert (coming_reply w1 1 = Answer) as H1' by (by rewrite Hshift).
  rewrite (loadData_listed uid st1 w1 H0' H1'), Hl1, Hs. split; [done|].
  destruct (loadData_world uid st1 w1 H0') as [Hs' _]. by rewrite Hs', Hs.
Qed.

Lemma loadData_twice_same_listing_witness :
  let σ1 := exec (Dashboard.loadData "u1") (Dashboard.initial, Example.world2 []) in
  let σ2 := exec (Dashboard.loadData "u1") σ1 in
  Dashboard.applications σ2.1 = Dashboard.applications σ1.1
  ∧ store σ2.2 = Example.store2.
Proof.
  apply (loadData_twice_same_listing "u1" Dashboard.initial (Example.world2 []));
    (reflexivity || (intros e; discriminate)).
Defined.

(** X9. How [loadData] ends. It always clears the loading flag and never
    changes the store. An error reply to the name lookup is ignored: the
    listing is still requested and nothing is logged. When the listing
    request fails the page keeps the list it had and the error goes to the
    console; when the name lookup rejects, the listing is not requested at
    all. *)
Theorem loadData_failure_modes uid st w :
  let σ' := exec (Dashboard.loadData uid) (st, w) in
  Dashboard.loading σ'.1 = false
  ∧ store σ'.2 = store w
  ∧ (∀ e0, coming_reply w 0 = ErrorReply e0 → coming_reply w 1 = Answer →
       Dashboard.applications σ'.1 = select_own uid (store w)
       ∧ Dashboard.studentName σ'.1 = Dashboard.studentName st
       ∧ console σ'.2 = console w)
  ∧ (∀ e, (∀ e0, coming_reply w 0 ≠ Reject e0) → failure (coming_reply w 1) = Some e →
       Dashboard.applications σ'.1 = Dashboard.applications st
       ∧ console σ'.2 = console w ++ [e])
  ∧ (∀ e, coming_reply w 0 = Reject e →
       Dashboard.applications σ'.1 = Dashboard.applications st
       ∧ console σ'.2 = console w ++ [e]
       ∧ calls σ'.2 = calls w ++ [CallSelectStudentName uid]).
Proof.
  cbv zeta. unfold coming_reply. simpl.
  unfold Dashboard.loadData. run_prims. unfold next_reply. simpl.
  destruct (default Answer (head (script w))) as [|e0|e0]; simpl;
    [destruct (select_student_name uid (store w)); simpl| |];
    try (destruct (default Answer (head (tail (script w)))) as [|e1|e1]; simpl);
    repeat split; intros; simplify_eq/=; try done;
    match goal with
    | H : ∀ e, Reject ?x ≠ Reject e |- _ => by destruct (H x)
    end.
Qed.

Lemma loadData_failure_modes_witness :
  let σ' := exec (Dashboard.loadData "u1")
                 (Dashboard.initial, Example.world2 [Answer; ErrorReply Example.boom]) in
  Dashboard.applications σ'.1 = [] ∧ console σ'.2 = [Example.boom].
Proof.
  intros σ'.
  destruct (loadData_failure_modes "u1" Dashboard.initial
              (Example.world2 [Answer; ErrorReply Example.boom]))
    as (_ & _ & _ & Hfail & _).
  apply (Hfail Example.boom); [intros e0; discriminate | reflexivity].
Defined.

End own_listing_again.

(** ** The administrator's listing and status updates *)

Section admin_listing.
Import Remote Net.

Lemma join_student_Some s x a :
  join_student s x = Some a →
  app a = x ∧ student a ∈ students s
  ∧ Student.id (student a) = Application.student_id x.
Proof.
  unfold join_student. intros H.
  destruct (list_find _ (students s)) as [[i st]|] eqn:Hfind; [|done].
  simpl in H. injection H as <-. simpl.
  apply list_find_Some in Hfind as (Hi & Hp & _).
  split; [done|]. split; [|done]. by eapply list_elem_of_lookup_2.
Qed.

Lemma elem_of_select_all s a :
  a ∈ select_all s →
  app a ∈ applications s ∧ student a ∈ students s
  ∧ Student.id (student a) = Application.student_id (app a).
Proof.
  unfold select_all. rewrite list_elem_of_omap. intros (x & Hx & Hj).
  apply join_student_Some in Hj as (<- & Hs & Hid).
  split; [|done]. unfold order_desc in Hx. by rewrite merge_sort_Permutation in Hx.
Qed.

Lemma select_all_sorted s : Sorted newest_first (select_all s).
Proof.
  apply StronglySorted_Sorted. unfold select_all.
  assert (StronglySorted newer_first (order_desc (applications s))) as Hs.
  { unfold order_desc. apply StronglySorted_merge_sort; apply _. }
  induction Hs as [|x l Hl IH Hx]; simpl; [constructor|].
  destruct (join_student s x) as [a|] eqn:Hj; [|done].
  constructor; [done|]. apply Forall_forall. intros b Hb.
  apply list_elem_of_omap in Hb as (y & Hy & Hjy).
  apply join_student_Some in Hj as (Ha & _), Hjy as (Hb & _).
  unfold newest_first. rewrite Ha, Hb.
  by apply (proj1 (Forall_forall _ _) Hx).
Qed.

Lemma select_all_complete s :
  students_present s → app <$> select_all s = order_desc (applications s).
Proof.
  intros Hp. unfold select_all.
  assert (∀ x, x ∈ order_desc (applications s) → x ∈ applications s) as Hin.
  { intros x. unfold order_desc. by rewrite merge_sort_Permutation. }
  induction (order_desc (applications s)) as [|x l IH]; [done|]. simpl.
  destruct (join_student s x) as [a|] eqn:Hj.
  - simpl. apply join_student_Some in Hj as (-> & _).
    f_equal. apply IH. intros y Hy. apply Hin. by right.
  - exfalso. unfold join_student in Hj.
    destruct (Hp x) as (st & Hst & Hid); [apply Hin; by left|].
    destruct (list_find_elem_of (λ st, Student.id st = Application.student_id x)
                (students s) st Hst Hid) as [r Hr].
    by rewrite Hr in Hj.
Qed.

(** X10. When the listing request is served, [loadApplications] puts on the
    page the applications ordered newest first, each joined with the
    student that owns it, all of them rows of the store; when every
    application of the store refers to an existing student, they are the
    applications of the store, all of them and each once. The loading flag
    is cleared and the store is untouched. *)
Theorem loadApplications_lists_all st w :
  coming_reply w 0 = Answer →
  let σ' := exec AdminDashboard.loadApplications (st, w) in
  Sorted newest_first (AdminDashboard.applications σ'.1)
  ∧ (∀ a, a ∈ AdminDashboard.applications σ'.1 →
       app a ∈ applications (store w)
       ∧ student a ∈ students (store w)
       ∧ Student.id (student a) = Application.student_id (app a))
  ∧ (students_present (store w) →
       app <$> AdminDashboard.applications σ'.1 ≡ₚ applications (store w))
  ∧ AdminDashboard.loading σ'.1 = false
  ∧ store σ'.2 = store w.
Proof.
  intros Hserved. cbv zeta. unfold exec. rewrite loadApplications_run, Hserved. simpl.
  split; [apply select_all_sorted|]. split; [apply elem_of_select_all|].
  split; [|done]. intros Hp. rewrite (select_all_complete _ Hp).
  apply merge_sort_Permutation.
Qed.

Lemma loadApplications_lists_all_witness :
  let σ' := exec AdminDashboard.loadApplications
                 (AdminDashboard.initial, Example.world2 []) in
  app <$> AdminDashboard.applications σ'.1 ≡ₚ applications Example.store2.
Proof.
  intros σ'.
  destruct (loadApplications_lists_all AdminDashboard.initial (Example.world2 []) eq_refl)
    as (_ & _ & Hall & _).
  apply Hall. intros a Ha.
  unfold Example.world2, Example.store2 in Ha. simpl in Ha.
  rewrite !elem_of_cons, elem_of_nil in Ha.
  destruct Ha as [-> | [-> | [-> | [-> | []]]]];
    [exists Example.bob | exists Example.alice | exists Example.bob | exists Example.alice];
    (split; [|reflexivity]); simpl; rewrite !elem_of_cons; auto.
Defined.

(** X11. When the update request fails, [handleStatusUpdate] changes
    nothing: the store is as before, the list and the selected application
    on the page are as before, no listing is requested; the error goes to
    the console and the buttons are enabled again. *)
Theorem failed_update_changes_nothing appId newStatus st w e :
  failure (coming_reply w 0) = Some e →
  let σ' := exec (AdminDashboard.handleStatusUpdate appId newStatus) (st, w) in
  store σ'.2 = store w
  ∧ calls σ'.2 = calls w ++ [CallUpdateStatus appId newStatus]
  ∧ console σ'.2 = console w ++ [e]
  ∧ AdminDashboard.applications σ'.1 = AdminDashboard.applications st
  ∧ AdminDashboard.selectedApp σ'.1 = AdminDashboard.selectedApp st
  ∧ AdminDashboard.updatingStatus σ'.1 = false.
Proof.
  intros Hfail. cbv zeta. by rewrite (handleStatusUpdate_failed _ _ _ _ e Hfail).
Qed.

Lemma failed_update_changes_nothing_witness :
  let σ' := exec (AdminDashboard.handleStatusUpdate "2" "Rejected")
                 (Example.admin_page, Example.world2 [Reject Example.boom]) in
  store σ'.2 = Example.store2
  ∧ calls σ'.2 = [CallUpdateStatus "2" "Rejected"]
  ∧ console σ'.2 = [Example.boom]
  ∧ AdminDashboard.applications σ'.1 = [Example.joined1]
  ∧ AdminDashboard.selectedApp σ'.1 = Some Example.joined1
  ∧ AdminDashboard.updatingStatus σ'.1 = false.
Proof.
  exact (failed_update_changes_nothing "2" "Rejected" Example.admin_page
           (Example.world2 [Reject Example.boom]) Example.boom eq_refl).
Defined.

End admin_listing.

Section admin_updates.
Import Remote Net.




Lemma kept_up_to_status_update old now appId b s :
  kept_up_to_status old s →
  kept_up_to_status old (update_status now appId (AdminDashboard.button_status b) s).
Proof.
  intros (Happs & Hrest). split; [|done]. simpl.
  apply Forall2_fmap_r. eapply Forall2_impl; [exact Happs|].
  intros a a' [Hsame Hst]. unfold compose, update_row.
  case_bool_decide; simpl; [|done]. split.
  - unfold same_but_status in *. by destruct a, a'; simplify_eq/=.
  - right. by destruct b; apply (bool_decide_unpack _).
Qed.

(** X13. What the administrator's page never does. Over any run of the page,
    under any principal and role, the store keeps the same applications in
    the same order, each with every column but [status] and [updated_at]
    as before; a status is either as before or one of Reviewed, Accepted,
    Rejected (never set back to Pending); students, admins and stored
    documents are untouched. *)
Theorem admin_page_only_writes_status user isAdmin σ evs σ' :
  AdminDashboard.runs user isAdmin σ evs σ' →
  Forall2 (λ a a', same_but_status a a'
                   ∧ (Application.status a' = Application.status a
                      ∨ Application.status a' ∈ ["Reviewed"; "Accepted"; "Rejected"]))
          (applications (store σ.2)) (applications (store σ'.2))
  ∧ students (store σ'.2) = students (store σ.2)
  ∧ admins (store σ'.2) = admins (store σ.2)
  ∧ objects (store σ'.2) = objects (store σ.2).
Proof.
  intros Hruns.
  change (kept_up_to_status (store σ.2) (store σ'.2)).
  assert (kept_up_to_status (store σ.2) (store σ.2)) as Hrefl.
  { split; [|done]. apply Forall_Forall2_diag, Forall_forall. intros a _.
    split; [done | by left]. }
  revert Hrefl. generalize (store σ.2) at 1 3 as old. intros old.
  induction Hruns as [σ|σ ev evs σ' _ _ IH]; intros Hk; [done|].
  apply IH. apply (handle_stable (kept_up_to_status old) user isAdmin ev); [|done].
  intros now appId b s. apply kept_up_to_status_update.
Qed.

Lemma admin_page_only_writes_status_witness :
  let root := Some (AuthContext.mkUser "root" "r@x.com") in
  let σ := (Example.admin_page, Example.world2 []) in
  let σ' := exec (AdminDashboard.handle root true (AdminDashboard.Click AdminDashboard.Reject_)) σ in
  students (store σ'.2) = students Example.store2
  ∧ admins (store σ'.2) = admins Example.store2
  ∧ objects (store σ'.2) = objects Example.store2.
Proof.
  intros root σ σ'.
  apply (admin_page_only_writes_status root true σ
           [AdminDashboard.Click AdminDashboard.Reject_] σ').
  apply AdminDashboard.runs_cons; [|apply AdminDashboard.runs_nil].
  simpl. split; [done|]. split; [by eexists | done].
Defined.

End admin_updates.

(** ** The role after a session change *)

Section role_after_session.
Import Remote Net.

Lemma checkAdminStatus_resume_run uid ctx w :
  AuthProvider.checkAdminStatus_resume uid (ctx, w)
  = (Normal (),
     (AuthContext.setLoading false
        (AuthContext.setIsAdmin
           (match next_reply w with
            | Answer => bool_decide (uid ∈ admins (store w))
            | _ => false
            end) ctx),
      pop_reply w)).
Proof.
  unfold AuthProvider.checkAdminStatus_resume. run_prims.
  destruct (next_reply w); simpl; [|done|done].
  unfold select_admin. by case_bool_decide.
Qed.

Lemma run_snoc evs ev σ :
  AuthProvider.run (evs ++ [ev]) σ = AuthProvider.handle ev (AuthProvider.run evs σ).
Proof. unfold AuthProvider.run. by rewrite foldl_app. Qed.

(** What every run of the provider keeps: the store; the lookups in flight
    were sent; and the role is admin only if a lookup was sent for an id of
    the admin table. *)
Lemma run_role_invariant evs w :
  let σ' := AuthProvider.run evs (AuthProvider.initial, w) in
  store σ'.2 = store w
  ∧ AuthContext.user (AuthProvider.context σ'.1) = AuthProvider.last_session evs
  ∧ ∃ cs, calls σ'.2 = calls w ++ cs
          ∧ (∀ uid, uid ∈ AuthProvider.pending σ'.1 → CallSelectAdmin uid ∈ cs)
          ∧ (AuthContext.isAdmin (AuthProvider.context σ'.1) = true →
               ∃ uid, CallSelectAdmin uid ∈ cs ∧ uid ∈ admins (store w)).
Proof.
  cbv zeta. induction evs as [|ev evs IH] using rev_ind.
  { simpl. repeat split. exists []. rewrite app_nil_r. split; [done|].
    split; [by intros uid Hin; apply elem_of_nil in Hin | done]. }
  rewrite run_snoc. unfold AuthProvider.last_session. rewrite omap_app.
  destruct IH as (Hst & Hu & cs & Hcs & Hpend & Hrole).
  destruct (AuthProvider.run evs (AuthProvider.initial, w)) as [[ctx pend] w1].
  simpl in *.
  destruct ev as [[u|]|[u|]|i]; simpl.
  - split; [done|]. split; [by rewrite last_snoc|].
    exists (cs ++ [CallSelectAdmin (AuthContext.id u)]).
    rewrite Hcs, (assoc_L (++)). split; [done|]. split.
    + intros uid. rewrite !elem_of_app, !list_elem_of_singleton.
      intros [?| ->]; [left; by apply Hpend | by right].
    + intros Ha. destruct (Hrole Ha) as (uid & ? & ?). exists uid.
      split; [|done]. apply elem_of_app. by left.
  - split; [done|]. split; [by rewrite last_snoc|]. by exists cs.
  - split; [done|]. split; [by rewrite last_snoc|].
    exists (cs ++ [CallSelectAdmin (AuthContext.id u)]).
    rewrite Hcs, (assoc_L (++)). split; [done|]. split.
    + intros uid. rewrite !elem_of_app, !list_elem_of_singleton.
      intros [?| ->]; [left; by apply Hpend | by right].
    + intros Ha. destruct (Hrole Ha) as (uid & ? & ?). exists uid.
      split; [|done]. apply elem_of_app. by left.
  - split; [done|]. split; [by rewrite last_snoc|]. exists cs.
    split; [done|]. split; [done|]. done.
  - rewrite app_nil_r. destruct (pend !! i) as [uid|] eqn:Hi; simpl.
    + unfold exec. rewrite checkAdminStatus_resume_run. simpl.
      split; [done|]. split; [done|]. exists cs. split; [done|]. split.
      * intros uid' Hin. apply Hpend.
        apply (sublist_subseteq _ _ (sublist_delete _ _) _ Hin).
      * intros Ha. exists uid. split.
        { apply Hpend. by eapply list_elem_of_lookup_2. }
        destruct (next_reply w1); [|done..].
        rewrite <- Hst. by apply bool_decide_eq_true in Ha.
    + split; [done|]. split; [done|]. by exists cs.
Qed.

(** X14. The role under interleaving. Session events and replies to the
    admin lookups may come in any order. Whatever the order, the store is
    never changed, the context holds the principal of the last session
    event, and the role is admin only if a lookup was sent for an id of the
    admin table. When the reply to the lookup arrives before any other
    event, the provider does what the subscriber (resp. the mount effect)
    run to its end does: the context holds the session's principal, loading
    is cleared, and the role is admin exactly when a principal is signed in,
    its id is in the admin table and the lookup was served. Otherwise the
    role may be stale: after an administrator signs in and out before the
    reply arrives, nobody is signed in and the role is admin; and when an
    administrator's session is followed by another principal's and the
    replies arrive in the opposite order, the role is admin under the other
    principal. *)
Theorem role_is_admin_only_if_listed (evs : list AuthProvider.Event) (w : World) :
  let σ' := AuthProvider.run evs (AuthProvider.initial, w) in
  store σ'.2 = store w
  ∧ AuthContext.user (AuthProvider.context σ'.1) = AuthProvider.last_session evs
  ∧ (AuthContext.isAdmin (AuthProvider.context σ'.1) = true →
       ∃ uid cs, calls σ'.2 = calls w ++ cs
                 ∧ CallSelectAdmin uid ∈ cs ∧ uid ∈ admins (store w))
  ∧ (∀ session ctx,
       let listed :=
         ∃ u, session = Some u ∧ AuthContext.id u ∈ admins (store w)
              ∧ coming_reply w 0 = Answer in
       let σ1 := AuthProvider.run
                   [AuthProvider.AuthStateChange session; AuthProvider.LookupReplied 0]
                   (AuthProvider.mkState ctx [], w) in
       let σ0 := AuthProvider.run
                   [AuthProvider.Mounted session; AuthProvider.LookupReplied 0]
                   (AuthProvider.initial, w) in
       (AuthProvider.context σ1.1, σ1.2)
       = exec (AuthContext.onAuthStateChange session) (ctx, w)
       ∧ (AuthProvider.context σ0.1, σ0.2)
         = exec (AuthContext.onSession session) (AuthContext.initial, w)
       ∧ AuthProvider.pending σ1.1 = [] ∧ AuthProvider.pending σ0.1 = []
       ∧ AuthContext.user (AuthProvider.context σ1.1) = session
       ∧ AuthContext.user (AuthProvider.context σ0.1) = session
       ∧ AuthContext.loading (AuthProvider.context σ1.1) = false
       ∧ AuthContext.loading (AuthProvider.context σ0.1) = false
       ∧ (AuthContext.isAdmin (AuthProvider.context σ1.1) = true ↔ listed)
       ∧ (AuthContext.isAdmin (AuthProvider.context σ0.1) = true ↔ listed)
       ∧ (session = None → σ1.2 = w ∧ σ0.2 = w))
  ∧ (∀ u, AuthContext.id u ∈ admins (store w) → coming_reply w 0 = Answer →
       let σ2 := AuthProvider.run
                   [AuthProvider.AuthStateChange (Some u);
                    AuthProvider.AuthStateChange None;
                    AuthProvider.LookupReplied 0]
                   (AuthProvider.initial, w) in
       AuthContext.user (AuthProvider.context σ2.1) = None
       ∧ AuthContext.isAdmin (AuthProvider.context σ2.1) = true)
  ∧ (∀ u v, AuthContext.id u ∈ admins (store w) →
       coming_reply w 1 = Answer →
       let σ2 := AuthProvider.run
                   [AuthProvider.AuthStateChange (Some u);
                    AuthProvider.AuthStateChange (Some v);
                    AuthProvider.LookupReplied 1;
                    AuthProvider.LookupReplied 0]
                   (AuthProvider.initial, w) in
       AuthContext.user (AuthProvider.context σ2.1) = Some v
       ∧ AuthContext.isAdmin (AuthProvider.context σ2.1) = true).
Proof.
  cbv zeta.
  destruct (run_role_invariant evs w) as (Hst & Hu & cs & Hcs & _ & Hrole).
  split; [done|]. split; [done|]. split.
  { intros Ha. destruct (Hrole Ha) as (uid & ? & ?). by exists uid, cs. }
  split; [|split].
  - intros session ctx. change (coming_reply w 0) with (next_reply w).
    unfold AuthContext.onAuthStateChange, AuthContext.onSession.
    destruct session as [u|]; simpl.
    + unfold exec, mbind, M_bind, bind, set_state, modify. simpl.
      rewrite !checkAdminStatus_run, !checkAdminStatus_resume_run. simpl.
      change (next_reply (log_call _ w)) with (next_reply w).
      assert ((match next_reply w with
               | Answer => bool_decide (AuthContext.id u ∈ admins (store w))
               | _ => false
               end) = true
              ↔ ∃ u0, Some u = Some u0 ∧ AuthContext.id u0 ∈ admins (store w)
                      ∧ next_reply w = Answer) as Hiff.
      { destruct (next_reply w); simpl.
        - rewrite bool_decide_eq_true.
          split; [by exists u | by intros (? & [= <-] & ? & _)].
        - split; [done | by intros (? & _ & _ & ?)].
        - split; [done | by intros (? & _ & _ & ?)]. }
      by repeat split; try apply Hiff.
    + run_prims. repeat split; try done; by intros (? & ? & _).
  - intros u Hin Hr. change (coming_reply w 0) with (next_reply w) in Hr. simpl.
    unfold exec. rewrite checkAdminStatus_resume_run. simpl.
    change (next_reply (log_call _ w)) with (next_reply w). rewrite Hr.
    split; [done|]. by apply bool_decide_eq_true.
  - intros u v Hin Hr. simpl.
    unfold exec. rewrite checkAdminStatus_resume_run. simpl.
    rewrite checkAdminStatus_resume_run. simpl.
    split; [done|].
    change (next_reply (pop_reply _)) with (coming_reply w 1). rewrite Hr.
    by apply bool_decide_eq_true.
Qed.

Lemma role_is_admin_only_if_listed_witness :
  let root := AuthContext.mkUser "root" "r@x.com" in
  let σ2 := AuthProvider.run
              [AuthProvider.AuthStateChange (Some root);
               AuthProvider.AuthStateChange None;
               AuthProvider.LookupReplied 0]
              (AuthProvider.initial, Example.world0 []) in
  AuthContext.user (AuthProvider.context σ2.1) = None
  ∧ AuthContext.isAdmin (AuthProvider.context σ2.1) = true.
Proof.
  intros root.
  destruct (role_is_admin_only_if_listed [] (Example.world0 []))
    as (_ & _ & _ & _ & Hrace & _).
  apply (Hrace root); [|reflexivity].
  by apply (bool_decide_unpack _).
Defined.

End role_after_session.

(** ** Registration *)

Section registration.
Import Remote Net.

Lemma signUp_run email password fullName phone p w :
  Identity.signUp email password fullName phone (p, w)
  = let p1 := Identity.pop_auth (Identity.log_request (Identity.ReqSignUp email password) p) in
    match Identity.next_auth p with
    | Identity.AuthData (Some u) =>
        let p2 := Identity.log_request
                    (Identity.ReqInsertStudent (AuthContext.id u) fullName email phone) p1 in
        match coming_reply w 0 with
        | Answer =>
            (Normal None,
             (p2, with_store
                    (Identity.insert_student (clock w) (AuthContext.id u) fullName email phone
                       (store w))
                    (pop_reply w)))
        | ErrorReply e | Reject e => (Normal (Some e), (p2, pop_reply w))
        end
    | Identity.AuthData None =>
        (Normal (Some (Js.mkThrown true "Registration failed")), (p1, w))
    | Identity.AuthError e | Identity.AuthReject e => (Normal (Some e), (p1, w))
    end.
Proof.
  change (coming_reply w 0) with (next_reply w).
  unfold Identity.signUp, Identity.auth_signUp, Identity.insert_profile. run_prims.
  destruct (Identity.next_auth p) as [[u|]|e|e]; simpl; try done.
  by destruct (next_reply w).
Qed.

(** X15. [signUp] never throws: it resolves with the error or with null. It
    resolves with null exactly when the identity provider returned a user
    and the profile insert was served, and then the store has one more
    student, with the provider's id and the name, email and phone given.
    In every other case the store is unchanged. Applications and admins
    are never touched. *)
Theorem signUp_result email password fullName phone p w :
  ∃ result,
    outcome (Identity.signUp email password fullName phone) (p, w) = Normal result
    ∧ let s' := store (exec (Identity.signUp email password fullName phone) (p, w)).2 in
      (result = None
       ↔ ∃ u, Identity.next_auth p = Identity.AuthData (Some u)
              ∧ coming_reply w 0 = Answer)
      ∧ (∀ u, Identity.next_auth p = Identity.AuthData (Some u) → result = None →
           students s'
           = students (store w)
             ++ [Student.mk (AuthContext.id u) fullName email phone (clock w) (clock w)])
      ∧ (result ≠ None → s' = store w)
      ∧ applications s' = applications (store w)
      ∧ admins s' = admins (store w).
Proof.
  unfold outcome, exec. rewrite signUp_run. cbv zeta.
  destruct (Identity.next_auth p) as [[u|]|e|e]; simpl.
  - destruct (coming_reply w 0) as [|e|e]; simpl; eexists; (split; [reflexivity|]).
    + split; [split; [by exists u | done]|]. split; [by intros ? [= <-] _|]. by split.
    + split; [split; [done | by intros (? & _ & ?)]|]. by repeat split.
    + split; [split; [done | by intros (? & _ & ?)]|]. by repeat split.
  - eexists. split; [reflexivity|].
    split; [split; [done | by intros (? & ? & _)]|]. by repeat split.
  - eexists. split; [reflexivity|].
    split; [split; [done | by intros (? & ? & _)]|]. by repeat split.
  - eexists. split; [reflexivity|].
    split; [split; [done | by intros (? & ? & _)]|]. by repeat split.
Qed.

Lemma signUp_result_witness :
  let carol := AuthContext.mkUser "u3" "c@x.com" in
  let p := Identity.mkProvider [Identity.AuthData (Some carol)] [] in
  ∃ result,
    outcome (Identity.signUp "c@x.com" "secret" "Carol" "0782") (p, Example.world0 [])
    = Normal result
    ∧ result = None.
Proof.
  intros carol p.
  destruct (signUp_result "c@x.com" "secret" "Carol" "0782" p (Example.world0 []))
    as (result & Hout & Hiff & _).
  exists result. split; [exact Hout|]. apply Hiff.
  exists carol. split; reflexivity.
Defined.

(** X16. The failures of [signUp]. When the provider reports an error or
    returns no user ("Registration failed"), the profile insert is not
    requested. When the provider returned a user and the profile insert
    fails, [signUp] resolves with that error; the sign-up request was made
    and served, no student row exists for it, and nothing is requested
    afterwards to undo it. *)
Theorem signUp_failures email password fullName phone p w :
  let r := outcome (Identity.signUp email password fullName phone) (p, w) in
  let σ' := exec (Identity.signUp email password fullName phone) (p, w) in
  (∀ e, Identity.next_auth p = Identity.AuthError e ∨ Identity.next_auth p = Identity.AuthReject e →
     r = Normal (Some e)
     ∧ Identity.requests σ'.1 = Identity.requests p ++ [Identity.ReqSignUp email password]
     ∧ σ'.2 = w)
  ∧ (Identity.next_auth p = Identity.AuthData None →
     r = Normal (Some (Js.mkThrown true "Registration failed"))
     ∧ Identity.requests σ'.1 = Identity.requests p ++ [Identity.ReqSignUp email password]
     ∧ σ'.2 = w)
  ∧ (∀ u e, Identity.next_auth p = Identity.AuthData (Some u) →
       failure (coming_reply w 0) = Some e →
       r = Normal (Some e)
       ∧ Identity.requests σ'.1
         = Identity.requests p
           ++ [Identity.ReqSignUp email password;
               Identity.ReqInsertStudent (AuthContext.id u) fullName email phone]
       ∧ store σ'.2 = store w).
Proof.
  cbv zeta. unfold outcome, exec. rewrite signUp_run. cbv zeta.
  split; [|split].
  - intros e [-> | ->]; by simpl.
  - by intros ->.
  - intros u e -> Hfail. simpl.
    destruct (coming_reply w 0); simplify_eq/=; by rewrite <- (assoc_L (++)).
Qed.

Lemma signUp_failures_witness :
  let carol := AuthContext.mkUser "u3" "c@x.com" in
  let p := Identity.mkProvider [Identity.AuthData (Some carol)] [] in
  let w := Example.world0 [ErrorReply Example.boom] in
  outcome (Identity.signUp "c@x.com" "secret" "Carol" "0782") (p, w)
  = Normal (Some Example.boom)
  ∧ Identity.requests (exec (Identity.signUp "c@x.com" "secret" "Carol" "0782") (p, w)).1
    = [Identity.ReqSignUp "c@x.com" "secret";
       Identity.ReqInsertStudent "u3" "Carol" "c@x.com" "0782"]
  ∧ store (exec (Identity.signUp "c@x.com" "secret" "Carol" "0782") (p, w)).2
    = Example.store0.
Proof.
  intros carol p w.
  destruct (signUp_failures "c@x.com" "secret" "Carol" "0782" p w) as (_ & _ & Hgap).
  by apply (Hgap carol Example.boom).
Defined.

End registration.

(** ** Edge cases of the administrator's filter *)

Section filter_edges.

Lemma includes_empty s : Js.includes s "" = true.
Proof. apply includes_spec. by exists "", s. Qed.

Lemma matches_empty_all a : AdminDashboard.matches "" "all" a = true.
Proof.
  unfold AdminDashboard.matches. rewrite toLowerCase_empty.
  by rewrite includes_empty.
Qed.

Lemma filter_all_true {A} (f : A → bool) (l : list A) :
  (∀ x, f x = true) → List.filter f l = l.
Proof.
  intros Hf. induction l as [|x l IH]; [done|]. simpl. by rewrite Hf, IH.
Qed.

Lemma filter_filter_same {A} (f : A → bool) (l : list A) :
  List.filter f (List.filter f l) = List.filter f l.
Proof.
  induction l as [|x l IH]; [done|]. simpl.
  destruct (f x) eqn:Hx; [|done]. simpl. by rewrite Hx, IH.
Qed.

Lemma filter_sublist_impl {A} (f g : A → bool) (l : list A) :
  (∀ x, f x = true → g x = true) → List.filter f l `sublist_of` List.filter g l.
Proof.
  intros Hfg. induction l as [|x l IH]; [done|]. simpl.
  destruct (f x) eqn:Hx.
  - rewrite (Hfg x Hx). by constructor.
  - destruct (g x); [by constructor | done].
Qed.

(** Text equal up to the case of its letters has the same lower-cased
    form, for ASCII text. *)
Lemma toLowerCase_eq_ignore_case t t' :
  Wording.ascii_text t → Wording.ascii_text t' → Wording.eq_ignore_case t t' →
  Js.toLowerCase t' = Js.toLowerCase t.
Proof.
  intros Ht Ht' H. rewrite (toLowerCase_ascii t Ht), (toLowerCase_ascii t' Ht').
  symmetry. by apply smap_eq_ignore_case.
Qed.

(** X17. Edge cases of the filter. With an empty search term and the filter
    "all" the view is the whole collection; with an empty search term it is
    the applications of the chosen status; filtering the view again changes
    nothing; a status filter only narrows the view obtained with "all";
    and two ASCII search terms that differ only in the case of their letters
    (one of A..Z against the same letter of a..z) give the same view. *)
Theorem filter_edge_cases (applications : list ApplicationWithStudent) (t f : string) :
  AdminDashboard.filteredApplications applications "" "all" = applications
  ∧ AdminDashboard.filteredApplications applications "" f
    = List.filter (λ a, bool_decide (f = "all")
                        || bool_decide (Application.status (app a) = f)) applications
  ∧ AdminDashboard.filteredApplications
      (AdminDashboard.filteredApplications applications t f) t f
    = AdminDashboard.filteredApplications applications t f
  ∧ AdminDashboard.filteredApplications applications t f
      `sublist_of` AdminDashboard.filteredApplications applications t "all"
  ∧ (∀ t', Wording.ascii_text t → Wording.ascii_text t' →
       Wording.eq_ignore_case t t' →
       AdminDashboard.filteredApplications applications t' f
       = AdminDashboard.filteredApplications applications t f).
Proof.
  unfold AdminDashboard.filteredApplications. repeat split.
  - apply filter_all_true, matches_empty_all.
  - apply filter_ext. intros a. unfold AdminDashboard.matches.
    rewrite toLowerCase_empty. by rewrite !includes_empty.
  - apply filter_filter_same.
  - apply filter_sublist_impl. intros a. unfold AdminDashboard.matches.
    rewrite !andb_true_iff. intros [-> _]. done.
  - intros t' Ht Ht' H. apply toLowerCase_eq_ignore_case in H; [|done..].
    apply filter_ext. intros a. unfold AdminDashboard.matches. by rewrite H.
Qed.

Lemma filter_edge_cases_witness :
  AdminDashboard.filteredApplications Example.listing "hArVaRd" "Accepted"
  = AdminDashboard.filteredApplications Example.listing "Harvard" "Accepted".
Proof.
  apply (filter_edge_cases Example.listing "Harvard" "Accepted");
    [repeat constructor | repeat constructor |].
  apply smap_eq_ignore_case; [repeat constructor | repeat constructor | reflexivity].
Defined.

(** Beyond ASCII the case of an accented letter is ignored as well: the terms
    "école" and "ÉCOLE" both find the application for "École Polytechnique",
    and "ecole", without the accent, does not. *)
Example filter_ecole :
  AdminDashboard.filteredApplications (Example.joined_ecole :: Example.listing) "école" "all"
  = [Example.joined_ecole]
  ∧ AdminDashboard.filteredApplications (Example.joined_ecole :: Example.listing) "ÉCOLE" "all"
    = [Example.joined_ecole]
  ∧ AdminDashboard.filteredApplications (Example.joined_ecole :: Example.listing) "ecole" "all"
    = [].
Proof. by vm_compute. Qed.

End filter_edges.

(** ** Applications are never removed *)

Section never_removed.
Import Remote Net.

Lemma same_but_status_update now appId newStatus a a' :
  same_but_status a a' → same_but_status a (update_row now appId newStatus a').
Proof.
  unfold same_but_status, update_row. intros H. case_bool_decide; [|done].
  by destruct a, a'; simplify_eq/=.
Qed.

Lemma extends_applications_update old now appId newStatus s :
  extends_applications old s →
  extends_applications old (update_status now appId newStatus s).
Proof.
  intros (kept & new & Hs & Hk). unfold extends_applications. simpl.
  rewrite Hs, fmap_app.
  eexists _, _. split; [done|]. apply Forall2_fmap_r.
  eapply Forall2_impl; [exact Hk|]. intros a a'. apply same_but_status_update.
Qed.

Lemma extends_applications_insert old now p s :
  extends_applications old s → extends_applications old (insert_application now p s).
Proof.
  intros (kept & new & Hs & Hk). unfold extends_applications. simpl.
  rewrite Hs, <- (assoc_L (++)).
  by eexists _, _.
Qed.

Lemma step_extends_applications old w w' :
  System.step w w' →
  extends_applications old (store w) → extends_applications old (store w').
Proof.
  intros Hstep Hw. destruct Hstep as
    [w script' clock' _ | st session w | st file t w | uid st w | uid st w
    | user isAdmin st ev w _]; simpl.
  - done.
  - by apply (onAuthStateChange_stable (extends_applications old) session (st, w)).
  - by apply (handleFileChange_stable (extends_applications old) file t (st, w)).
  - apply (handleSubmit_stable (extends_applications old) uid); [done| |done].
    intros now p s _. apply extends_applications_insert.
  - by apply (loadData_stable (extends_applications old) uid (st, w)).
  - apply (handle_stable (extends_applications old) user isAdmin ev); [|done].
    intros now appId b s. apply extends_applications_update.
Qed.

(** X18. No handler of the portal removes or reorders applications or edits
    anything but their status and [updated_at]: after any number of steps
    of the portal, the store holds the applications it held before, in the
    same order, each with its owner, descriptive fields, document locators
    and [created_at] as before, followed by the applications submitted
    since. *)
Theorem applications_never_removed w w' :
  rtc System.step w w' →
  ∃ kept new,
    applications (store w') = kept ++ new
    ∧ Forall2 same_but_status (applications (store w)) kept.
Proof.
  intros Hsteps.
  change (extends_applications (applications (store w)) (store w')).
  assert (extends_applications (applications (store w)) (store w)) as H0.
  { exists (applications (store w)), []. split; [by rewrite app_nil_r|].
    by apply Forall_Forall2_diag, Forall_forall. }
  revert H0. generalize (applications (store w)) as old. intros old.
  induction Hsteps as [w|w1 w2 w3 Hstep _ IH]; intros H0; [done|].
  apply IH. by eapply step_extends_applications.
Qed.

Lemma applications_never_removed_witness :
  let w' := (exec (Apply.handleSubmit "u1") (Example.form_filled, Example.world2 [])).2 in
  ∃ kept new,
    applications (store w') = kept ++ new
    ∧ Forall2 same_but_status (applications Example.store2) kept.
Proof.
  intros w'.
  apply (applications_never_removed (Example.world2 []) w').
  apply rtc_once.
  exact (System.step_submit "u1" Example.form_filled (Example.world2 [])).
Defined.

End never_removed.
